(** * Interval-walking timer: the timing engine of iwt-app

    The development embeds three pieces of the repository:

    - [AppTick]      : [src/App.tsx], the wall-clock version of the app whose
                       self-rescheduling [tick] drives the countdown and the
                       interval notifications;
    - [TimerDisplay] : the [TimerDisplay] component (shared values, the two
                       prop-sync effects and the per-frame callback);
    - [AppDisplay]   : the version of the app that is wired to [TimerDisplay]
                       and keeps [accumulatedMs]/[startMonoMs] in MMKV.

    Clock readings ([Date.now ()], [performance.now ()]) and durations are
    whole numbers of milliseconds or seconds, in [Z]; [Math.floor (a / b)]
    for a positive [b] is [Z.div], and the JavaScript remainder [%] is
    [Z.rem] (it takes the sign of the dividend). React state is threaded
    explicitly: a handler maps the state of the render it was created in to
    the state after its batched updates, together with the list of side
    effects it performed, in program order. An [async] handler is cut at its
    first [await]; what follows the [await] is a handler of its own. *)

From stdpp Require Import gmap strings list pretty sorting.
From Stdlib Require Import ZArith Lia Ascii.

#[local] Open Scope Z_scope.

(** ** JavaScript arithmetic used by the sources *)

Module Js.

(** [Math.floor (a / b)] on integers, [b > 0]. *)
Definition floor_div (a b : Z) : Z := a / b.

(** [a % b]: truncated remainder, sign of the dividend. *)
Definition rem (a b : Z) : Z := Z.rem a b.

(** A nullable number used as a condition ([!x], [if (x)]): [null],
    [undefined] and [0] are falsy. *)
Definition truthy (x : option Z) : bool :=
  match x with
  | Some v => negb (v =? 0)
  | None => false
  end.

(** *** [parseInt (s)] without a radix

    Strings are sequences of code units below 256. Leading white space is
    dropped, then an optional sign, then an optional [0x]/[0X] prefix that
    selects radix 16; the value is that of the longest prefix of digits,
    and [None] stands for [NaN] (no digit at all). *)

Definition isWhiteSpace (c : ascii) : bool :=
  let n := Z.of_N (N_of_ascii c) in
  (n =? 9) || (n =? 10) || (n =? 11) || (n =? 12) || (n =? 13)
  || (n =? 32) || (n =? 160).

Fixpoint trimStart (s : string) : string :=
  match s with
  | String.String c r => if isWhiteSpace c then trimStart r else s
  | String.EmptyString => s
  end.

Definition digitValue (c : ascii) : option Z :=
  let n := Z.of_N (N_of_ascii c) in
  if (48 <=? n) && (n <=? 57) then Some (n - 48)
  else if (97 <=? n) && (n <=? 122) then Some (n - 97 + 10)
  else if (65 <=? n) && (n <=? 90) then Some (n - 65 + 10)
  else None.

Fixpoint digits (radix : Z) (acc : option Z) (s : string) : option Z :=
  match s with
  | String.String c r =>
      match digitValue c with
      | Some d =>
          if d <? radix
          then digits radix (Some (default 0 acc * radix + d)) r
          else acc
      | None => acc
      end
  | String.EmptyString => acc
  end.

Definition parseInt (s : string) : option Z :=
  let s1 := trimStart s in
  let '(sign, s2) :=
    match s1 with
    | String.String "-"%char r => (-1, r)
    | String.String "+"%char r => (1, r)
    | _ => (1, s1)
    end in
  let '(radix, s3) :=
    match s2 with
    | String.String "0"%char (String.String "x"%char r)
    | String.String "0"%char (String.String "X"%char r) => (16, r)
    | _ => (10, s2)
    end in
  (fun v => sign * v) <$> digits radix None s3.

(** [Math.ceil (a / b)] on integers, [b > 0]. *)
Definition ceil_div (a b : Z) : Z := - ((- a) / b).

(** [s.padStart (target, pad)] for a one-character [pad]. *)
Definition padStart (target : nat) (pad : ascii) (s : string) : string :=
  String.string_of_list_ascii
    (replicate (target - String.length s) pad) +:+ s.

End Js.

(** Boolean comparisons on [Z] are reflected before [lia] is called. *)
Ltac zbool :=
  repeat match goal with
    | |- context [Z.eqb ?a ?b] => destruct (Z.eqb_spec a b)
    | |- context [Z.ltb ?a ?b] => destruct (Z.ltb_spec a b)
    | |- context [Z.leb ?a ?b] => destruct (Z.leb_spec a b)
    | H : context [Z.eqb ?a ?b] |- _ => destruct (Z.eqb_spec a b)
    | H : context [Z.ltb ?a ?b] |- _ => destruct (Z.ltb_spec a b)
    | H : context [Z.leb ?a ?b] |- _ => destruct (Z.leb_spec a b)
    end.

(** ** Side effects

    Both versions of the app talk to the same collaborators (the notification
    service, the alert dialog, the keyboard, the timeout queue), so the events
    are shared. A handler returns the events it raised, in program order. *)

(** Body selected by [sendIntervalNotification]. *)
Inductive IntervalMessage :=
| GreatStart
| HalfwayFirstInterval
| HalfwaySession (totalMinutes : Z)
| AlmostThere
| KeepGoing (minutes : Z).

Inductive Effect :=
| AlertInvalidDuration
| KeyboardDismiss
| ClearTimeout
| SetTimeout (delay : Z)
| StartNotification (duration : Z)
| IntervalNotification (elapsedSeconds : Z)
| CompleteNotification (totalMinutes : Z)
| DismissNotification (id : string).

(** ** [src/App.tsx]: the tick-driven app *)

Module AppTick.

(** The [useState] cells and the two refs of [App]. [timeoutRef] holds the
    delay of the pending [setTimeout], if any. *)
Record State := mkState {
  isTimerActive : bool;
  notificationId : option string;
  customDuration : string;
  trainingDuration : Z;
  showConfetti : bool;
  isPausePrompt : bool;
  startTime : option Z;
  pausedTime : Z;
  pauseStartTime : option Z;
  timeRemaining : Z;
  timeoutRef : option Z;
  lastTickRef : option Z
}.

Definition initial : State :=
  {| isTimerActive := false; notificationId := None;
     customDuration := "30"; trainingDuration := 30 * 60;
     showConfetti := false; isPausePrompt := false;
     startTime := None; pausedTime := 0; pauseStartTime := None;
     timeRemaining := 30 * 60; timeoutRef := None; lastTickRef := None |}.

(** *** Derived countdown of the current 3-minute interval *)

Definition elapsedSeconds (st : State) : Z :=
  trainingDuration st - timeRemaining st.

Definition currentIntervalRemaining (st : State) : Z :=
  if timeRemaining st =? 0 then 0
  else if Js.rem (elapsedSeconds st) 180 =? 0 then 180
  else 180 - Js.rem (elapsedSeconds st) 180.

Definition currentIntervalIndex (st : State) : Z :=
  Js.floor_div (elapsedSeconds st) 180 + 1.

Definition intervalKindLabel (st : State) : string :=
  if Js.rem (currentIntervalIndex st) 2 =? 1 then "Relaxed" else "Fast".

Definition intervalsLeft (st : State) : Z :=
  Js.ceil_div (timeRemaining st) 180.

(** The "Total Remaining" row is rendered when more than one interval is
    left. *)
Definition totalRowShown (st : State) : bool := 1 <? intervalsLeft st.

(** [formatTime]: [mm:ss] of a count of seconds. *)
Definition formatTime (seconds : Z) : string :=
  let minutes := Js.floor_div seconds 60 in
  let remainingSeconds := Js.rem seconds 60 in
  Js.padStart 2 "0" (pretty minutes) +:+ ":"
  +:+ Js.padStart 2 "0" (pretty remainingSeconds).

(** *** [sendIntervalNotification] *)

Definition intervalMessage (trainingDuration elapsed : Z) : IntervalMessage :=
  let minutes := Js.floor_div elapsed 60 in
  let totalMinutes := Js.floor_div trainingDuration 60 in
  if minutes =? 3 then GreatStart
  else if minutes =? 6 then HalfwayFirstInterval
  else if minutes =? Js.floor_div totalMinutes 2 then HalfwaySession totalMinutes
  else if minutes =? totalMinutes - 3 then AlmostThere
  else KeepGoing minutes.

Definition sendIntervalNotification (elapsed : Z) : list Effect :=
  [IntervalNotification elapsed].

(** [if (timeoutRef.current) { clearTimeout (...); timeoutRef.current = null }] *)
Definition clearPending (st : State) : list Effect :=
  match timeoutRef st with
  | Some _ => [ClearTimeout]
  | None => []
  end.

(** *** [handleTimerComplete], up to its first [await] *)

Definition handleTimerComplete (st : State) : State * list Effect :=
  ({| isTimerActive := false;
      notificationId := notificationId st;
      customDuration := customDuration st;
      trainingDuration := trainingDuration st;
      showConfetti := showConfetti st;
      isPausePrompt := isPausePrompt st;
      startTime := None;
      pausedTime := 0;
      pauseStartTime := None;
      timeRemaining := trainingDuration st;
      timeoutRef := None;
      lastTickRef := None |},
   clearPending st
     ++ [CompleteNotification (Js.floor_div (trainingDuration st) 60)]).

(** The continuation of [handleTimerComplete] once the notification call
    has resolved. *)
Definition handleTimerComplete_resolved (st : State) : State :=
  {| isTimerActive := isTimerActive st;
     notificationId := notificationId st;
     customDuration := customDuration st;
     trainingDuration := trainingDuration st;
     showConfetti := true;
     isPausePrompt := isPausePrompt st;
     startTime := startTime st;
     pausedTime := pausedTime st;
     pauseStartTime := pauseStartTime st;
     timeRemaining := timeRemaining st;
     timeoutRef := timeoutRef st;
     lastTickRef := lastTickRef st |}.

(** *** [tick]

    The local constants of one run of [tick], for a session started at
    [start] (the value of [startTime], known to be set past the guard). *)

Definition totalElapsedMs (now start : Z) (st : State) : Z :=
  now - start - pausedTime st.

Definition totalElapsedSeconds (now start : Z) (st : State) : Z :=
  Js.floor_div (totalElapsedMs now start st) 1000.

Definition newTimeRemaining (now start : Z) (st : State) : Z :=
  Z.max 0 (trainingDuration st - totalElapsedSeconds now start st).

(** The "3-minute interval notifications" block. *)
Definition intervalNotifications (now start : Z) (st : State) : list Effect :=
  let secs := totalElapsedSeconds now start st in
  if (0 <? secs) && (Js.rem secs 180 =? 0) then
    let currentInterval := Js.floor_div secs 180 in
    let previousElapsedSeconds :=
      Js.floor_div (totalElapsedMs now start st - 100) 1000 in
    let previousInterval := Js.floor_div previousElapsedSeconds 180 in
    if previousInterval <? currentInterval
    then sendIntervalNotification secs
    else []
  else [].

Definition targetTime (now start : Z) (st : State) : Z :=
  start + pausedTime st + (totalElapsedSeconds now start st + 1) * 1000.

(** [let delay = targetTime - now; if (delay < 0) delay = 1] *)
Definition tickDelay (now start : Z) (st : State) : Z :=
  let delay := targetTime now start st - now in
  if delay <? 0 then 1 else delay.

Definition setTimeRemaining (v : Z) (st : State) : State :=
  {| isTimerActive := isTimerActive st;
     notificationId := notificationId st;
     customDuration := customDuration st;
     trainingDuration := trainingDuration st;
     showConfetti := showConfetti st;
     isPausePrompt := isPausePrompt st;
     startTime := startTime st;
     pausedTime := pausedTime st;
     pauseStartTime := pauseStartTime st;
     timeRemaining := v;
     timeoutRef := timeoutRef st;
     lastTickRef := lastTickRef st |}.

(** [lastTickRef.current = now; timeoutRef.current = setTimeout (tick, delay)] *)
Definition schedule (now delay : Z) (st : State) : State :=
  {| isTimerActive := isTimerActive st;
     notificationId := notificationId st;
     customDuration := customDuration st;
     trainingDuration := trainingDuration st;
     showConfetti := showConfetti st;
     isPausePrompt := isPausePrompt st;
     startTime := startTime st;
     pausedTime := pausedTime st;
     pauseStartTime := pauseStartTime st;
     timeRemaining := timeRemaining st;
     timeoutRef := Some delay;
     lastTickRef := Some now |}.

Definition tick (now : Z) (st : State) : State * list Effect :=
  match startTime st with
  | Some start =>
      if negb (isTimerActive st) || (start =? 0) then (st, [])
      else
        let st1 := setTimeRemaining (newTimeRemaining now start st) st in
        if newTimeRemaining now start st =? 0 then handleTimerComplete st1
        else
          (schedule now (tickDelay now start st) st1,
           intervalNotifications now start st
             ++ [SetTimeout (tickDelay now start st)])
  | None => (st, [])
  end.

(** *** The timer lifecycle effect

    The effect re-runs after every render in which [isTimerActive],
    [startTime], [tick] or [timeRemaining] changed: first the cleanup of its
    previous run, which cancels the pending timeout, then its body, which
    calls [tick] right away while the session is running. *)

Definition dropTimeout (st : State) : State :=
  {| isTimerActive := isTimerActive st;
     notificationId := notificationId st;
     customDuration := customDuration st;
     trainingDuration := trainingDuration st;
     showConfetti := showConfetti st;
     isPausePrompt := isPausePrompt st;
     startTime := startTime st;
     pausedTime := pausedTime st;
     pauseStartTime := pauseStartTime st;
     timeRemaining := timeRemaining st;
     timeoutRef := None;
     lastTickRef := lastTickRef st |}.

Definition setLastTick (now : Z) (st : State) : State :=
  {| isTimerActive := isTimerActive st;
     notificationId := notificationId st;
     customDuration := customDuration st;
     trainingDuration := trainingDuration st;
     showConfetti := showConfetti st;
     isPausePrompt := isPausePrompt st;
     startTime := startTime st;
     pausedTime := pausedTime st;
     pauseStartTime := pauseStartTime st;
     timeRemaining := timeRemaining st;
     timeoutRef := timeoutRef st;
     lastTickRef := Some now |}.

Definition lifecycle (now : Z) (st : State) : State * list Effect :=
  if isTimerActive st && Js.truthy (startTime st) && (0 <? timeRemaining st)
  then
    let '(st1, out) := tick now (setLastTick now (dropTimeout st)) in
    (st1, clearPending st ++ out)
  else (dropTimeout st, clearPending st).

(** *** The buttons' handlers *)

(** The three literal arguments of [setPresetDuration]. *)
Inductive Preset := P15 | P30 | P60.

Definition presetLabel (p : Preset) : string :=
  match p with P15 => "15" | P30 => "30" | P60 => "60" end.

Definition presetMinutes (p : Preset) : Z :=
  match p with P15 => 15 | P30 => 30 | P60 => 60 end.

Definition setCustomDuration (text : string) (st : State) : State :=
  {| isTimerActive := isTimerActive st;
     notificationId := notificationId st;
     customDuration := text;
     trainingDuration := trainingDuration st;
     showConfetti := showConfetti st;
     isPausePrompt := isPausePrompt st;
     startTime := startTime st;
     pausedTime := pausedTime st;
     pauseStartTime := pauseStartTime st;
     timeRemaining := timeRemaining st;
     timeoutRef := timeoutRef st;
     lastTickRef := lastTickRef st |}.

Definition setPresetDuration (p : Preset) (st : State) : State :=
  {| isTimerActive := isTimerActive st;
     notificationId := notificationId st;
     customDuration := presetLabel p;
     trainingDuration := presetMinutes p * 60;
     showConfetti := showConfetti st;
     isPausePrompt := isPausePrompt st;
     startTime := startTime st;
     pausedTime := pausedTime st;
     pauseStartTime := pauseStartTime st;
     timeRemaining := timeRemaining st;
     timeoutRef := timeoutRef st;
     lastTickRef := lastTickRef st |}.

(** [startTimer], up to its first [await]. *)
Definition startTimer (now : Z) (st : State) : State * list Effect :=
  match Js.parseInt (customDuration st) with
  | Some duration =>
      if (duration <? 5) || (120 <? duration)
      then (st, [AlertInvalidDuration])
      else
        ({| isTimerActive := true;
            notificationId := notificationId st;
            customDuration := customDuration st;
            trainingDuration := duration * 60;
            showConfetti := showConfetti st;
            isPausePrompt := isPausePrompt st;
            startTime := Some now;
            pausedTime := 0;
            pauseStartTime := None;
            timeRemaining := duration * 60;
            timeoutRef := None;
            lastTickRef := lastTickRef st |},
         [KeyboardDismiss] ++ clearPending st ++ [StartNotification duration])
  | None => (st, [AlertInvalidDuration])
  end.

(** The continuation of [startTimer]: [setNotificationId (id)]. *)
Definition startTimer_resolved (id : string) (st : State) : State :=
  {| isTimerActive := isTimerActive st;
     notificationId := Some id;
     customDuration := customDuration st;
     trainingDuration := trainingDuration st;
     showConfetti := showConfetti st;
     isPausePrompt := isPausePrompt st;
     startTime := startTime st;
     pausedTime := pausedTime st;
     pauseStartTime := pauseStartTime st;
     timeRemaining := timeRemaining st;
     timeoutRef := timeoutRef st;
     lastTickRef := lastTickRef st |}.

Definition stopTimer (now : Z) (st : State) : State * list Effect :=
  ({| isTimerActive := false;
      notificationId := notificationId st;
      customDuration := customDuration st;
      trainingDuration := trainingDuration st;
      showConfetti := showConfetti st;
      isPausePrompt := true;
      startTime := startTime st;
      pausedTime := pausedTime st;
      pauseStartTime := Some now;
      timeRemaining := timeRemaining st;
      timeoutRef := None;
      lastTickRef := lastTickRef st |},
   clearPending st).

Definition continueTraining (now : Z) (st : State) : State * list Effect :=
  ({| isTimerActive := true;
      notificationId := notificationId st;
      customDuration := customDuration st;
      trainingDuration := trainingDuration st;
      showConfetti := showConfetti st;
      isPausePrompt := false;
      startTime := startTime st;
      pausedTime :=
        match pauseStartTime st with
        | Some paused => pausedTime st + (now - paused)
        | None => pausedTime st
        end;
      pauseStartTime := None;
      timeRemaining := timeRemaining st;
      timeoutRef := timeoutRef st;
      lastTickRef := lastTickRef st |},
   []).

(** [if (notificationId)]: [null] and the empty string are falsy. *)
Definition dismissible (id : option string) : option string :=
  match id with
  | Some s => if String.eqb s "" then None else Some s
  | None => None
  end.

Definition endTraining (st : State) : State * list Effect :=
  ({| isTimerActive := false;
      notificationId :=
        match dismissible (notificationId st) with
        | Some _ => None
        | None => notificationId st
        end;
      customDuration := customDuration st;
      trainingDuration := trainingDuration st;
      showConfetti := showConfetti st;
      isPausePrompt := false;
      startTime := None;
      pausedTime := 0;
      pauseStartTime := None;
      timeRemaining := trainingDuration st;
      timeoutRef := None;
      lastTickRef := None |},
   clearPending st
     ++ match dismissible (notificationId st) with
        | Some id => [DismissNotification id]
        | None => []
        end).

(** *** The screen

    [App] renders the timer screen when [isTimerActive || isPausePrompt] and
    the start screen otherwise; on the timer screen it shows End/Continue
    when [isPausePrompt] and Stop otherwise. *)

Definition timerScreen (st : State) : bool :=
  isTimerActive st || isPausePrompt st.

Inductive Event :=
| PressPreset (p : Preset)
| PressStart (now : Z)
| StartResolved (id : string)
| PressStop (now : Z)
| PressContinue (now : Z)
| PressEnd
| Tick (now : Z)
| Lifecycle (now : Z)
| CompleteResolved.

(** Is the control of a press on screen? Ticks, effect runs and resolutions
    of pending calls come from the runtime and are never refused. *)
Definition offered (e : Event) (st : State) : bool :=
  match e with
  | PressStart _ | PressPreset _ => negb (timerScreen st)
  | PressStop _ => timerScreen st && negb (isPausePrompt st)
  | PressContinue _ | PressEnd => timerScreen st && isPausePrompt st
  | StartResolved _ | Tick _ | Lifecycle _ | CompleteResolved => true
  end.

Definition handle (e : Event) (st : State) : State * list Effect :=
  match e with
  | PressPreset p => (setPresetDuration p st, [])
  | PressStart now => startTimer now st
  | StartResolved id => (startTimer_resolved id st, [])
  | PressStop now => stopTimer now st
  | PressContinue now => continueTraining now st
  | PressEnd => endTraining st
  | Tick now => tick now st
  | Lifecycle now => lifecycle now st
  | CompleteResolved => (handleTimerComplete_resolved st, [])
  end.

(** The clock reading an event carries, if it reads the clock. *)
Definition reading (e : Event) : option Z :=
  match e with
  | PressStart now | PressStop now | PressContinue now
  | Tick now | Lifecycle now => Some now
  | _ => None
  end.

(** Running a list of events; the effects are concatenated in order. *)
Fixpoint run (es : list Event) (st : State) : State * list Effect :=
  match es with
  | [] => (st, [])
  | e :: es' =>
      let '(st1, out1) := handle e st in
      let '(st2, out2) := run es' st1 in
      (st2, out1 ++ out2)
  end.

(** Every press hits a control that is on screen. *)
Fixpoint gated (es : list Event) (st : State) : bool :=
  match es with
  | [] => true
  | e :: es' => offered e st && gated es' (handle e st).1
  end.

(** Clock readings never go back, starting from [clock]. *)
Fixpoint monotone (clock : Z) (es : list Event) : bool :=
  match es with
  | [] => true
  | e :: es' =>
      match reading e with
      | Some now => (clock <=? now) && monotone now es'
      | None => monotone clock es'
      end
  end.

End AppTick.

(** ** The [TimerDisplay] component *)

Module TimerDisplay.

(** [formatMs]: [mm:ss] of a millisecond count, negative counts as 0. *)
Definition twoDigits (n : Z) : string :=
  if n <? 10 then "0" +:+ pretty n else pretty n.

Definition formatMs (ms : Z) : string :=
  let clamped := if ms <? 0 then 0 else ms in
  let totalSeconds := Js.floor_div clamped 1000 in
  let minutes := Js.floor_div totalSeconds 60 in
  let seconds := Js.rem totalSeconds 60 in
  twoDigits minutes +:+ ":" +:+ twoDigits seconds.

(** The props that reach the timing code; [onDone] records whether the
    optional callback was passed. *)
Record Props := mkProps {
  durationMs : Z;
  accumulatedMs : Z;
  isRunning : bool;
  startMonoMs : option Z;
  onDone : bool;
  showRemaining : bool
}.

(** The five shared values, owned by the UI thread. *)
Record Shared := mkShared {
  baseElapsedSV : Z;
  startMonoSV : Z;
  runningSV : Z;
  durationSV : Z;
  renderElapsedSV : Z
}.

Definition flag (b : bool) : Z := if b then 1 else 0.

(** The initial values given to [useSharedValue] on mount. *)
Definition mount (p : Props) : Shared :=
  {| baseElapsedSV := accumulatedMs p;
     startMonoSV := default 0 (startMonoMs p);
     runningSV := flag (isRunning p);
     durationSV := durationMs p;
     renderElapsedSV := accumulatedMs p |}.

(** First effect: [durationSV.value = durationMs]. *)
Definition syncDuration (p : Props) (sv : Shared) : Shared :=
  {| baseElapsedSV := baseElapsedSV sv;
     startMonoSV := startMonoSV sv;
     runningSV := runningSV sv;
     durationSV := durationMs p;
     renderElapsedSV := renderElapsedSV sv |}.

(** Second effect: running flag and anchors. *)
Definition syncAnchors (p : Props) (sv : Shared) : Shared :=
  match isRunning p, startMonoMs p with
  | true, Some start =>
      {| baseElapsedSV := accumulatedMs p;
         startMonoSV := start;
         runningSV := flag (isRunning p);
         durationSV := durationSV sv;
         renderElapsedSV := accumulatedMs p |}
  | _, _ =>
      {| baseElapsedSV := accumulatedMs p;
         startMonoSV := startMonoSV sv;
         runningSV := flag (isRunning p);
         durationSV := durationSV sv;
         renderElapsedSV := accumulatedMs p |}
  end.

(** What a frame hands over to the React Native thread. *)
Inductive Signal := ScheduleOnRN_onDone.

(** The frame callback, at monotonic clock reading [nowMono]. *)
Definition frame (p : Props) (nowMono : Z) (sv : Shared)
  : Shared * list Signal :=
  if runningSV sv =? 0 then (sv, [])
  else
    let elapsed := baseElapsedSV sv + (nowMono - startMonoSV sv) in
    if durationSV sv <=? elapsed then
      ({| baseElapsedSV := durationSV sv;
          startMonoSV := startMonoSV sv;
          runningSV := 0;
          durationSV := durationSV sv;
          renderElapsedSV := durationSV sv |},
       if onDone p then [ScheduleOnRN_onDone] else [])
    else
      ({| baseElapsedSV := baseElapsedSV sv;
          startMonoSV := startMonoSV sv;
          runningSV := runningSV sv;
          durationSV := durationSV sv;
          renderElapsedSV := elapsed |},
       []).

(** [animatedProps]: the label on screen. *)
Definition label (p : Props) (sv : Shared) : string :=
  let elapsedForRender := renderElapsedSV sv in
  let remaining := Z.max 0 (durationSV sv - elapsedForRender) in
  if showRemaining p then formatMs remaining else formatMs elapsedForRender.

(** A run of frames: the final shared values, the signals raised, and the
    rendered value sampled after every frame. *)
Fixpoint frames (p : Props) (nows : list Z) (sv : Shared)
  : Shared * list Signal * list Z :=
  match nows with
  | [] => (sv, [], [])
  | now :: rest =>
      let '(sv1, sig1) := frame p now sv in
      let '(sv2, sig2, samples) := frames p rest sv1 in
      (sv2, sig1 ++ sig2, renderElapsedSV sv1 :: samples)
  end.

(** The live elapsed value a frame computes. *)
Definition live (sv : Shared) (nowMono : Z) : Z :=
  baseElapsedSV sv + (nowMono - startMonoSV sv).

(** Does the frame at [nowMono] reach the duration? *)
Definition reaches (sv : Shared) (nowMono : Z) : bool :=
  durationSV sv <=? live sv nowMono.

End TimerDisplay.

(** ** The app wired to [TimerDisplay], with MMKV-backed anchors *)

Module AppDisplay.

(** Modelled from the spec: the MMKV instance [storage] exported by
    [src/localCache/mmkv] is not among the sources. It is the key-value
    store of the spec's interface ([get (key) -> value | absent],
    [set (key, value)]); a value is a number, a string or a boolean, and a
    numeric read of anything but a number yields [undefined]. *)
Inductive Stored :=
| StoredNumber (n : Z)
| StoredString (s : string)
| StoredBoolean (b : bool).

Abbreviation Store := (gmap string Stored).

Definition getNumber (key : string) (m : Store) : option Z :=
  match m !! key with
  | Some (StoredNumber n) => Some n
  | _ => None
  end.

(** The setter of [useMMKVNumber]: [undefined] deletes the key. *)
Definition setNumber (key : string) (v : option Z) (m : Store) : Store :=
  match v with
  | Some n => <[key := StoredNumber n]> m
  | None => delete key m
  end.

Definition clearAll (m : Store) : Store := ∅.

(** The [useState] cells of [App] and the store behind its two
    [useMMKVNumber] cells. *)
Record State := mkState {
  isTimerActive : bool;
  trainingDuration : Z;
  showConfetti : bool;
  isRunning : bool;
  durationMs : Z;
  storage : Store
}.

Definition accumulatedMs (st : State) : option Z :=
  getNumber "accumulatedMs" (storage st).

Definition startMonoMs (st : State) : option Z :=
  getNumber "startMonoMs" (storage st).

(** First render of a fresh process over whatever the store holds. *)
Definition firstRender (disk : Store) : State :=
  {| isTimerActive := false; trainingDuration := 30 * 60;
     showConfetti := false; isRunning := false;
     durationMs := 30 * 60 * 1000; storage := disk |}.

(** The mount effect: [storage.clearAll ()]. *)
Definition mountEffect (st : State) : State :=
  {| isTimerActive := isTimerActive st;
     trainingDuration := trainingDuration st;
     showConfetti := showConfetti st;
     isRunning := isRunning st;
     durationMs := durationMs st;
     storage := clearAll (storage st) |}.

Definition startup (disk : Store) : State := mountEffect (firstRender disk).

Definition initial : State := startup ∅.

Definition setPresetDuration (seconds : Z) (st : State) : State :=
  {| isTimerActive := isTimerActive st;
     trainingDuration := seconds;
     showConfetti := showConfetti st;
     isRunning := isRunning st;
     durationMs := seconds * 1000;
     storage := storage st |}.

Definition startTimer (now : Z) (st : State) : State :=
  {| isTimerActive := true;
     trainingDuration := trainingDuration st;
     showConfetti := showConfetti st;
     isRunning := true;
     durationMs := trainingDuration st * 1000;
     storage :=
       setNumber "startMonoMs" (Some now)
         (setNumber "accumulatedMs" (Some 0) (storage st)) |}.

Definition stopTimer (now : Z) (st : State) : State :=
  {| isTimerActive := isTimerActive st;
     trainingDuration := trainingDuration st;
     showConfetti := showConfetti st;
     isRunning := false;
     durationMs := durationMs st;
     storage :=
       match startMonoMs st with
       | Some start =>
           setNumber "startMonoMs" None
             (setNumber "accumulatedMs"
                (Some (default 0 (accumulatedMs st) + (now - start)))
                (storage st))
       | None => storage st
       end |}.

Definition continueTraining (now : Z) (st : State) : State :=
  {| isTimerActive := isTimerActive st;
     trainingDuration := trainingDuration st;
     showConfetti := showConfetti st;
     isRunning := true;
     durationMs := durationMs st;
     storage := setNumber "startMonoMs" (Some now) (storage st) |}.

Definition endTraining (st : State) : State :=
  {| isTimerActive := false;
     trainingDuration := trainingDuration st;
     showConfetti := showConfetti st;
     isRunning := false;
     durationMs := durationMs st;
     storage :=
       setNumber "startMonoMs" None
         (setNumber "accumulatedMs" (Some 0) (storage st)) |}.

(** The [onDone] callback passed to [TimerDisplay]. *)
Definition onDone (st : State) : State :=
  {| isTimerActive := false;
     trainingDuration := trainingDuration st;
     showConfetti := true;
     isRunning := false;
     durationMs := durationMs st;
     storage := storage st |}.

(** The props [App] passes to [TimerDisplay]. *)
Definition props (st : State) : TimerDisplay.Props :=
  {| TimerDisplay.durationMs := durationMs st;
     TimerDisplay.accumulatedMs := default 0 (accumulatedMs st);
     TimerDisplay.isRunning := isRunning st;
     TimerDisplay.startMonoMs := startMonoMs st;
     TimerDisplay.onDone := true;
     TimerDisplay.showRemaining := true |}.

(** *** The buttons

    The start screen (Start and the three presets) is rendered when
    [isTimerActive] is false; otherwise Stop is rendered while [isRunning]
    and End/Continue while not. *)

(** The three preset buttons pass [15 * 60], [30 * 60] and [60 * 60]. *)
Inductive Preset := P15 | P30 | P60.

Definition presetSeconds (p : Preset) : Z :=
  match p with P15 => 15 * 60 | P30 => 30 * 60 | P60 => 60 * 60 end.

Inductive Op :=
| Choose (p : Preset)
| Start (now : Z)
| Pause (now : Z)
| Resume (now : Z)
| End_.

Definition call (o : Op) (st : State) : State :=
  match o with
  | Choose p => setPresetDuration (presetSeconds p) st
  | Start now => startTimer now st
  | Pause now => stopTimer now st
  | Resume now => continueTraining now st
  | End_ => endTraining st
  end.

Definition offered (o : Op) (st : State) : bool :=
  match o with
  | Choose _ | Start _ => negb (isTimerActive st)
  | Pause _ => isTimerActive st && isRunning st
  | Resume _ | End_ => isTimerActive st && negb (isRunning st)
  end.

(** The handlers called one after the other, whatever the screen shows. *)
Definition calls (os : list Op) (st : State) : State :=
  foldl (fun s o => call o s) st os.

(** Every call comes from a button that is on screen. *)
Fixpoint gated (os : list Op) (st : State) : bool :=
  match os with
  | [] => true
  | o :: os' => offered o st && gated os' (call o st)
  end.

(** *** The two threads

    The React Native thread owns [State]; the UI thread owns the shared
    values of the mounted [TimerDisplay] (none while the start screen is
    shown); [rnQueue] holds what frames have scheduled onto the React
    Native thread and has not run yet. *)
Record System := mkSystem {
  app : State;
  display : option TimerDisplay.Shared;
  rnQueue : list TimerDisplay.Signal
}.

(** Re-render after [App]'s state went from [old] to [new]: mount or
    unmount [TimerDisplay], or run the effects whose dependencies changed. *)
Definition rerender (old new : State) (d : option TimerDisplay.Shared)
  : option TimerDisplay.Shared :=
  if isTimerActive new then
    match d with
    | None =>
        Some (TimerDisplay.syncAnchors (props new)
                (TimerDisplay.syncDuration (props new)
                   (TimerDisplay.mount (props new))))
    | Some sv =>
        let sv1 :=
          if bool_decide (durationMs old = durationMs new) then sv
          else TimerDisplay.syncDuration (props new) sv in
        Some
          (if bool_decide
                (isRunning old = isRunning new
                 ∧ startMonoMs old = startMonoMs new
                 ∧ default 0 (accumulatedMs old)
                   = default 0 (accumulatedMs new))
           then sv1
           else TimerDisplay.syncAnchors (props new) sv1)
    end
  else None.

Inductive Step :=
| Press (o : Op)
| Frame (nowMono : Z)
| RunScheduled.

Definition step (s : Step) (sys : System) : System :=
  match s with
  | Press o =>
      if offered o (app sys) then
        let new := call o (app sys) in
        {| app := new;
           display := rerender (app sys) new (display sys);
           rnQueue := rnQueue sys |}
      else sys
  | Frame nowMono =>
      match display sys with
      | Some sv =>
          let '(sv1, sigs) := TimerDisplay.frame (props (app sys)) nowMono sv in
          {| app := app sys;
             display := Some sv1;
             rnQueue := rnQueue sys ++ sigs |}
      | None => sys
      end
  | RunScheduled =>
      match rnQueue sys with
      | TimerDisplay.ScheduleOnRN_onDone :: rest =>
          let new := onDone (app sys) in
          {| app := new;
             display := rerender (app sys) new (display sys);
             rnQueue := rest |}
      | [] => sys
      end
  end.

Definition steps (ss : list Step) (sys : System) : System :=
  foldl (fun s x => step x s) sys ss.

Definition boot (disk : Store) : System :=
  {| app := startup disk; display := None; rnQueue := [] |}.

(** *** Reference accounting of running segments

    The spec's session: a segment opens when the session enters Running
    (start from Idle, resume from Paused) and completes at the pause that
    leaves Running; pause while Paused and resume while Running change
    nothing. *)
Inductive Status := Idle | Running (segmentStart : Z) | Paused.

Record Session := mkSession {
  status : Status;
  completed : list (Z * Z)
}.

Definition account (o : Op) (s : Session) : Session :=
  match o, status s with
  | Start now, Idle => {| status := Running now; completed := [] |}
  | Pause now, Running start =>
      {| status := Paused; completed := completed s ++ [(start, now)] |}
  | Resume now, Paused =>
      {| status := Running now; completed := completed s |}
  | End_, (Running _ | Paused) => {| status := Idle; completed := [] |}
  | _, _ => s
  end.

Definition accounts (os : list Op) (s : Session) : Session :=
  foldl (fun s o => account o s) s os.

Definition idle : Session := {| status := Idle; completed := [] |}.

(** Sum of (pause instant - segment-start instant) over the segments. *)
Definition segmentsTotal (segs : list (Z * Z)) : Z :=
  foldr (fun seg acc => (seg.2 - seg.1) + acc) 0 segs.

Definition isPaused (s : Session) : bool :=
  match status s with Paused => true | _ => false end.

End AppDisplay.

#[global] Arguments AppDisplay.getNumber : simpl never.
#[global] Arguments AppDisplay.setNumber : simpl never.

(** ** The first version of the app: a one-second interval

    The earliest [App] counts [timeRemaining] down with [setInterval]; it has
    no clock reading, no pause and no display component. The interval is
    armed by an effect that re-runs whenever [timeRemaining] changes, so
    every arming fires once. *)

Module AppInterval.

Record State := mkState {
  isTimerActive : bool;
  timeRemaining : Z;
  notificationId : option string;
  customDuration : string;
  trainingDuration : Z
}.

Definition initial : State :=
  {| isTimerActive := false; timeRemaining := 30 * 60;
     notificationId := None; customDuration := "30";
     trainingDuration := 30 * 60 |}.

(** The dialog shown once the completion notification has been scheduled. *)
Inductive Dialog := TrainingCompleteAlert (totalMinutes : Z).

Definition validateAndSetDuration (text : string) (st : State) : State :=
  if String.eqb text "" then
    {| isTimerActive := isTimerActive st;
       timeRemaining := timeRemaining st;
       notificationId := notificationId st;
       customDuration := text;
       trainingDuration := trainingDuration st |}
  else
    match Js.parseInt text with
    | Some numValue =>
        if (5 <=? numValue) && (numValue <=? 120) then
          {| isTimerActive := isTimerActive st;
             timeRemaining := timeRemaining st;
             notificationId := notificationId st;
             customDuration := text;
             trainingDuration := numValue * 60 |}
        else
          {| isTimerActive := isTimerActive st;
             timeRemaining := timeRemaining st;
             notificationId := notificationId st;
             customDuration := text;
             trainingDuration := trainingDuration st |}
    | None =>
        {| isTimerActive := isTimerActive st;
           timeRemaining := timeRemaining st;
           notificationId := notificationId st;
           customDuration := "30";
           trainingDuration := 30 * 60 |}
    end.

Definition setPresetDuration (p : AppTick.Preset) (st : State) : State :=
  {| isTimerActive := isTimerActive st;
     timeRemaining := timeRemaining st;
     notificationId := notificationId st;
     customDuration := AppTick.presetLabel p;
     trainingDuration := AppTick.presetMinutes p * 60 |}.

(** [startTimer], up to its first [await]. *)
Definition startTimer (st : State) : State * list Effect :=
  match Js.parseInt (customDuration st) with
  | Some duration =>
      if (duration <? 5) || (120 <? duration)
      then (st, [AlertInvalidDuration])
      else
        ({| isTimerActive := true;
            timeRemaining := duration * 60;
            notificationId := notificationId st;
            customDuration := customDuration st;
            trainingDuration := duration * 60 |},
         [KeyboardDismiss; StartNotification duration])
  | None => (st, [AlertInvalidDuration])
  end.

Definition startTimer_resolved (id : string) (st : State) : State :=
  {| isTimerActive := isTimerActive st;
     timeRemaining := timeRemaining st;
     notificationId := Some id;
     customDuration := customDuration st;
     trainingDuration := trainingDuration st |}.

Definition stopTimer (st : State) : State * list Effect :=
  ({| isTimerActive := false;
      timeRemaining := trainingDuration st;
      notificationId :=
        match AppTick.dismissible (notificationId st) with
        | Some _ => None
        | None => notificationId st
        end;
      customDuration := customDuration st;
      trainingDuration := trainingDuration st |},
   match AppTick.dismissible (notificationId st) with
   | Some id => [DismissNotification id]
   | None => []
   end).

(** [handleTimerComplete], up to its first [await]. *)
Definition handleTimerComplete (st : State) : State * list Effect :=
  ({| isTimerActive := false;
      timeRemaining := trainingDuration st;
      notificationId := notificationId st;
      customDuration := customDuration st;
      trainingDuration := trainingDuration st |},
   [CompleteNotification (Js.floor_div (trainingDuration st) 60)]).

Definition handleTimerComplete_resolved (st : State) : list Dialog :=
  [TrainingCompleteAlert (Js.floor_div (trainingDuration st) 60)].

(** The interval callback: the updater passed to [setTimeRemaining]. *)
Definition onInterval (st : State) : State * list Effect :=
  let newTime := timeRemaining st - 1 in
  ({| isTimerActive := isTimerActive st;
      timeRemaining := newTime;
      notificationId := notificationId st;
      customDuration := customDuration st;
      trainingDuration := trainingDuration st |},
   if (0 <? newTime) && (Js.rem (trainingDuration st - newTime) 180 =? 0)
   then AppTick.sendIntervalNotification (trainingDuration st - newTime)
   else []).

(** Is the interval armed by the effect's last run? *)
Definition armed (st : State) : bool :=
  isTimerActive st && (0 <? timeRemaining st).

(** The effect, re-run after [isTimerActive], [timeRemaining] or
    [trainingDuration] changed: it arms the interval, or completes the
    session when no time remains. *)
Definition countdownEffect (st : State) : State * list Effect :=
  if armed st then (st, [])
  else if timeRemaining st =? 0 then handleTimerComplete st
  else (st, []).

(** One second passes: the armed interval fires, the state is rendered and
    the effect re-runs. Nothing happens while no interval is armed. *)
Definition second (st : State) : State * list Effect :=
  if armed st then
    let '(st1, out1) := onInterval st in
    let '(st2, out2) := countdownEffect st1 in
    (st2, out1 ++ out2)
  else (st, []).

Fixpoint seconds (k : nat) (st : State) : State * list Effect :=
  match k with
  | O => (st, [])
  | S k' =>
      let '(st1, out1) := seconds k' st in
      let '(st2, out2) := second st1 in
      (st2, out1 ++ out2)
  end.

(** What the user and the runtime can do. *)
Inductive Event :=
| TypeDuration (text : string)
| PressPreset (p : AppTick.Preset)
| PressStart
| StartResolved (id : string)
| PressStop
| Second.

Definition handle (e : Event) (st : State) : State * list Effect :=
  match e with
  | TypeDuration text => (validateAndSetDuration text st, [])
  | PressPreset p => (setPresetDuration p st, [])
  | PressStart => startTimer st
  | StartResolved id => (startTimer_resolved id st, [])
  | PressStop => stopTimer st
  | Second => second st
  end.

Fixpoint run (es : list Event) (st : State) : State * list Effect :=
  match es with
  | [] => (st, [])
  | e :: es' =>
      let '(st1, out1) := handle e st in
      let '(st2, out2) := run es' st1 in
      (st2, out1 ++ out2)
  end.

End AppInterval.

(** * The specification's statements

    Each property the specification states of the engine is written down here
    once, as a proposition about the embedded code, next to the auxiliary
    definitions its proof or refutation uses. *)

(** ** The boundary notifier

    A boundary [k * 180] is crossed when it is at most the current elapsed
    seconds and above the last notified boundary; all crossed boundaries are
    to be notified, in ascending order. The last notified boundary is read
    off the notifications the session has emitted so far (0 when none). *)

Definition notified (out : list Effect) : list Z :=
  omap (fun e => match e with IntervalNotification s => Some s | _ => None end)
    out.

Definition lastNotifiedBoundary (out : list Effect) : Z :=
  foldr Z.max 0 (notified out).

Definition crossedBoundaries (last current : Z) : list Z :=
  (fun k => (last / 180 + 1 + Z.of_nat k) * 180)
    <$> seq 0 (Z.to_nat (current / 180 - last / 180)).

(** A 30-minute session started at [t0], ticked at [nows], is ticked again at
    [now] before its end: the tick notifies exactly the crossed boundaries. *)
Definition catchUpClaim : Prop :=
  ∀ (t0 : Z) (nows : list Z) (now : Z),
    t0 ≠ 0 →
    AppTick.monotone t0 (AppTick.Tick <$> (nows ++ [now])) = true →
    now - t0 < 30 * 60 * 1000 →
    let history :=
      AppTick.run (AppTick.PressStart t0 :: (AppTick.Tick <$> nows))
        AppTick.initial in
    notified (AppTick.tick now history.1).2
    = crossedBoundaries (lastNotifiedBoundary history.2)
        (Js.floor_div (now - t0) 1000).

(** ** The interval countdown *)

(** The countdown properties, claimed of every state the screen can reach. *)
Definition countdownClaim : Prop :=
  ∀ es : list AppTick.Event,
    AppTick.gated es AppTick.initial = true →
    let st := (AppTick.run es AppTick.initial).1 in
    (AppTick.timeRemaining st = 0 → AppTick.currentIntervalRemaining st = 0)
    ∧ (AppTick.timeRemaining st ≠ 0 →
       1 <= AppTick.currentIntervalRemaining st <= 180)
    ∧ (AppTick.timeRemaining st ≠ 0 →
       Js.rem (AppTick.elapsedSeconds st) 180 = 0 →
       AppTick.currentIntervalRemaining st = 180)
    ∧ 1 <= AppTick.currentIntervalIndex st.

(** Invariant of the screen-gated runs of [src/App.tsx] under a clock that
    never goes back, [clock] being its latest reading: on the timer screen
    the remaining time is within the training duration; while the timer is
    active its anchor [startTime + pausedTime] is not in the future; while
    the pause prompt is shown the pause instant is recorded and the anchor is
    not after it. *)
Definition tickInv (clock : Z) (st : AppTick.State) : Prop :=
  (AppTick.timerScreen st = true →
   0 <= AppTick.trainingDuration st
   ∧ AppTick.timeRemaining st <= AppTick.trainingDuration st)
  ∧ (AppTick.isTimerActive st = true →
     AppTick.isPausePrompt st = false
     ∧ ∀ start, AppTick.startTime st = Some start →
                start + AppTick.pausedTime st <= clock)
  ∧ (AppTick.isPausePrompt st = true →
     ∃ p, AppTick.pauseStartTime st = Some p ∧ p <= clock
          ∧ ∀ start, AppTick.startTime st = Some start →
                     start + AppTick.pausedTime st <= p).

(** ** Validation of the requested duration *)

(** The text in the duration cell is not a number, or is a number outside
    5..120. *)
Definition invalidDuration (s : string) : Prop :=
  match Js.parseInt s with
  | None => True
  | Some d => d < 5 ∨ 120 < d
  end.

(** ** Frames of [TimerDisplay] *)

(** The shared values once a frame has reached the duration. *)
Definition clamped (sv : TimerDisplay.Shared) : TimerDisplay.Shared :=
  {| TimerDisplay.baseElapsedSV := TimerDisplay.durationSV sv;
     TimerDisplay.startMonoSV := TimerDisplay.startMonoSV sv;
     TimerDisplay.runningSV := 0;
     TimerDisplay.durationSV := TimerDisplay.durationSV sv;
     TimerDisplay.renderElapsedSV := TimerDisplay.durationSV sv |}.

(** The shared values after a frame that advanced the rendered value to [r]. *)
Definition advanced (r : Z) (sv : TimerDisplay.Shared) : TimerDisplay.Shared :=
  {| TimerDisplay.baseElapsedSV := TimerDisplay.baseElapsedSV sv;
     TimerDisplay.startMonoSV := TimerDisplay.startMonoSV sv;
     TimerDisplay.runningSV := TimerDisplay.runningSV sv;
     TimerDisplay.durationSV := TimerDisplay.durationSV sv;
     TimerDisplay.renderElapsedSV := r |}.

(** What a frame hands to the React Native thread when it reaches the
    duration: the call [scheduleOnRN (onDone)], if [onDone] was passed. *)
Definition doneSignal (p : TimerDisplay.Props) : list TimerDisplay.Signal :=
  if TimerDisplay.onDone p then [TimerDisplay.ScheduleOnRN_onDone] else [].

(** Everything that writes the shared values of a mounted [TimerDisplay]:
    its two effects and its frame callback. *)
Inductive Update :=
| SyncDuration (p : TimerDisplay.Props)
| SyncAnchors (p : TimerDisplay.Props)
| FrameAt (p : TimerDisplay.Props) (nowMono : Z).

Definition update (u : Update) (sv : TimerDisplay.Shared)
  : TimerDisplay.Shared :=
  match u with
  | SyncDuration p => TimerDisplay.syncDuration p sv
  | SyncAnchors p => TimerDisplay.syncAnchors p sv
  | FrameAt p nowMono => (TimerDisplay.frame p nowMono sv).1
  end.

Definition updates (us : list Update) (sv : TimerDisplay.Shared)
  : TimerDisplay.Shared :=
  foldl (fun s u => update u s) sv us.

(** Props of a 30-minute session paused after 65 s. *)
Definition pausedAt65 : TimerDisplay.Props :=
  {| TimerDisplay.durationMs := 1800000;
     TimerDisplay.accumulatedMs := 65000;
     TimerDisplay.isRunning := false;
     TimerDisplay.startMonoMs := None;
     TimerDisplay.onDone := true;
     TimerDisplay.showRemaining := true |}.

(** ** The completion transition *)

Definition completions (out : list Effect) : list Z :=
  omap (fun e => match e with CompleteNotification m => Some m | _ => None end)
    out.

(** The clamp of the stored accumulated value, claimed of the app wired to
    [TimerDisplay]: a session started at [t0] whose frame at [now] reaches
    the duration ends, once the scheduled [onDone] has run, with
    [accumulatedMs] equal to [durationMs]. *)
Definition clampOnCompletionDisplay : Prop :=
  ∀ t0 now : Z,
    let sys0 :=
      AppDisplay.step (AppDisplay.Press (AppDisplay.Start t0))
        (AppDisplay.boot ∅) in
    AppDisplay.durationMs (AppDisplay.app sys0) <= now - t0 →
    let sys :=
      AppDisplay.steps [AppDisplay.Frame now; AppDisplay.RunScheduled] sys0 in
    AppDisplay.accumulatedMs (AppDisplay.app sys)
    = Some (AppDisplay.durationMs (AppDisplay.app sys)).

(** The same claim of [src/App.tsx], whose stored elapsed value is
    [trainingDuration - timeRemaining]. *)
Definition clampOnCompletionTick : Prop :=
  ∀ t0 now : Z,
    t0 ≠ 0 →
    let st0 := (AppTick.run [AppTick.PressStart t0] AppTick.initial).1 in
    AppTick.trainingDuration st0 * 1000 <= now - t0 →
    let st := (AppTick.tick now st0).1 in
    AppTick.elapsedSeconds st = AppTick.trainingDuration st.

(** ** Pausing and resuming twice *)

(** Idempotence as claimed of the app wired to [TimerDisplay], on every state
    its screen can reach. *)
Definition pauseResumeIdempotentDisplay : Prop :=
  ∀ (os : list AppDisplay.Op) (t1 t2 : Z),
    AppDisplay.gated os AppDisplay.initial = true → t1 <= t2 →
    let st := AppDisplay.calls os AppDisplay.initial in
    AppDisplay.stopTimer t2 (AppDisplay.stopTimer t1 st)
    = AppDisplay.stopTimer t1 st
    ∧ AppDisplay.continueTraining t2 (AppDisplay.continueTraining t1 st)
      = AppDisplay.continueTraining t1 st.

(** The same claim of [src/App.tsx]. *)
Definition pauseResumeIdempotentTick : Prop :=
  ∀ (es : list AppTick.Event) (t1 t2 : Z),
    AppTick.gated es AppTick.initial = true → t1 <= t2 →
    let st := (AppTick.run es AppTick.initial).1 in
    (AppTick.stopTimer t2 (AppTick.stopTimer t1 st).1).1
    = (AppTick.stopTimer t1 st).1
    ∧ (AppTick.continueTraining t2 (AppTick.continueTraining t1 st).1).1
      = (AppTick.continueTraining t1 st).1.

(** ** Accounting of the running segments *)

(** The accumulated value claimed of every sequence of handler calls. *)
Definition accountingClaim : Prop :=
  ∀ os : list AppDisplay.Op,
    AppDisplay.isPaused (AppDisplay.accounts os AppDisplay.idle) = true →
    AppDisplay.accumulatedMs (AppDisplay.calls os AppDisplay.initial)
    = Some (AppDisplay.segmentsTotal
              (AppDisplay.completed
                 (AppDisplay.accounts os AppDisplay.idle))).

(** The app and the reference session in step. *)
Definition inStep (st : AppDisplay.State) (s : AppDisplay.Session) : Prop :=
  match AppDisplay.status s with
  | AppDisplay.Idle => AppDisplay.isTimerActive st = false
  | AppDisplay.Running start =>
      AppDisplay.isTimerActive st = true
      ∧ AppDisplay.isRunning st = true
      ∧ AppDisplay.startMonoMs st = Some start
      ∧ AppDisplay.accumulatedMs st
        = Some (AppDisplay.segmentsTotal (AppDisplay.completed s))
  | AppDisplay.Paused =>
      AppDisplay.isTimerActive st = true
      ∧ AppDisplay.isRunning st = false
      ∧ AppDisplay.startMonoMs st = None
      ∧ AppDisplay.accumulatedMs st
        = Some (AppDisplay.segmentsTotal (AppDisplay.completed s))
  end.

(** ** Persistence across restarts *)

(** A session found in the store is taken up again by a fresh process. *)
Definition persistenceClaim : Prop :=
  ∀ (disk : gmap string AppDisplay.Stored) (a s : Z),
    AppDisplay.getNumber "accumulatedMs" disk = Some a →
    AppDisplay.getNumber "startMonoMs" disk = Some s →
    AppDisplay.accumulatedMs (AppDisplay.startup disk) = Some a
    ∧ AppDisplay.startMonoMs (AppDisplay.startup disk) = Some s.

(** The store a process leaves behind when it is killed 65 s into a running
    session. *)
Definition sessionOnDisk : gmap string AppDisplay.Stored :=
  <["accumulatedMs" := AppDisplay.StoredNumber 65000]>
    (<["startMonoMs" := AppDisplay.StoredNumber 1000]> ∅).

(** ** The display as a shadow of the app

    [App]'s state and the shared values of its [TimerDisplay] agree: the
    display is mounted exactly while a session is active; its copy of the
    duration is [durationMs]; while its running flag is on, the app is
    running and the display's anchor and base are the app's [startMonoMs]
    and [accumulatedMs]; while the app is not running, the display is
    stopped and frozen at [accumulatedMs]. A running app has its anchor
    set. *)
Definition inSync (st : AppDisplay.State) (d : option TimerDisplay.Shared)
  : Prop :=
  (AppDisplay.isRunning st = true → is_Some (AppDisplay.startMonoMs st))
  ∧ match d with
    | None => AppDisplay.isTimerActive st = false
    | Some sv =>
        AppDisplay.isTimerActive st = true
        ∧ TimerDisplay.durationSV sv = AppDisplay.durationMs st
        ∧ (TimerDisplay.runningSV sv ≠ 0 →
           AppDisplay.isRunning st = true
           ∧ AppDisplay.startMonoMs st = Some (TimerDisplay.startMonoSV sv)
           ∧ TimerDisplay.baseElapsedSV sv
             = default 0 (AppDisplay.accumulatedMs st))
        ∧ (AppDisplay.isRunning st = false →
           TimerDisplay.runningSV sv = 0
           ∧ TimerDisplay.baseElapsedSV sv
             = default 0 (AppDisplay.accumulatedMs st)
           ∧ TimerDisplay.renderElapsedSV sv
             = default 0 (AppDisplay.accumulatedMs st))
    end.

Definition displayInSync (sys : AppDisplay.System) : Prop :=
  inSync (AppDisplay.app sys) (AppDisplay.display sys).

(** ** Running time in [src/App.tsx]

    The reference accounting of running segments, on the events of
    [src/App.tsx]: a start opens the first segment of a new session, a stop
    while running completes the open segment, a continue while paused opens
    the next one, an end closes the session. Ticks and effect runs do not
    move the account; the session a tick has finished stays on the account
    until the next start replaces it. *)
Definition tickAccount (e : AppTick.Event) (s : AppDisplay.Session)
  : AppDisplay.Session :=
  match e with
  | AppTick.PressStart now =>
      {| AppDisplay.status := AppDisplay.Running now;
         AppDisplay.completed := [] |}
  | AppTick.PressStop now =>
      match AppDisplay.status s with
      | AppDisplay.Running start =>
          {| AppDisplay.status := AppDisplay.Paused;
             AppDisplay.completed := AppDisplay.completed s ++ [(start, now)] |}
      | _ => s
      end
  | AppTick.PressContinue now =>
      match AppDisplay.status s with
      | AppDisplay.Paused =>
          {| AppDisplay.status := AppDisplay.Running now;
             AppDisplay.completed := AppDisplay.completed s |}
      | _ => s
      end
  | AppTick.PressEnd => AppDisplay.idle
  | _ => s
  end.

Fixpoint tickAccounts (es : list AppTick.Event) (s : AppDisplay.Session)
  : AppDisplay.Session :=
  match es with
  | [] => s
  | e :: es' => tickAccounts es' (tickAccount e s)
  end.

(** [src/App.tsx] and the account in step: while the timer is active the
    anchor [startTime + pausedTime] is the start of the open segment moved
    back by the completed running time; while the pause prompt is shown the
    recorded pause instant, read against the anchor, is the completed
    running time. *)
Definition tickInStep (st : AppTick.State) (s : AppDisplay.Session) : Prop :=
  (AppTick.isTimerActive st = true →
   AppTick.isPausePrompt st = false
   ∧ ∃ start seg,
       AppTick.startTime st = Some start
       ∧ AppDisplay.status s = AppDisplay.Running seg
       ∧ start + AppTick.pausedTime st
         = seg - AppDisplay.segmentsTotal (AppDisplay.completed s))
  ∧ (AppTick.isPausePrompt st = true →
     AppTick.isTimerActive st = false
     ∧ ∃ start p,
         AppTick.startTime st = Some start
         ∧ AppTick.pauseStartTime st = Some p
         ∧ AppDisplay.status s = AppDisplay.Paused
         ∧ p - start - AppTick.pausedTime st
           = AppDisplay.segmentsTotal (AppDisplay.completed s)).

(** What every state of [src/App.tsx] keeps: the duration text is one of the
    preset labels, the training duration one of the preset lengths, and the
    remaining time is not negative. *)
Definition presetState (st : AppTick.State) : Prop :=
  AppTick.customDuration st ∈ ["15"; "30"; "60"]
  ∧ AppTick.trainingDuration st ∈ [15 * 60; 30 * 60; 60 * 60]
  ∧ 0 <= AppTick.timeRemaining st.

(** * Properties of [src/App.tsx] *)

Section TickFacts.

Import AppTick.

Variables (now start : Z) (st : State).

Let ms := totalElapsedMs now start st.
Let secs := totalElapsedSeconds now start st.

Lemma secs_bounds : secs * 1000 <= ms < (secs + 1) * 1000.
Proof.
  subst ms secs. unfold totalElapsedSeconds, Js.floor_div.
  generalize (totalElapsedMs now start st). intros m.
  pose proof (Z.div_mod m 1000 ltac:(lia)).
  pose proof (Z.mod_pos_bound m 1000 ltac:(lia)). lia.
Qed.

Lemma targetTime_delta :
  targetTime now start st - now = (secs + 1) * 1000 - ms.
Proof. subst ms secs. unfold targetTime, totalElapsedMs. lia. Qed.

(** The delay [tick] computes is between 1 and 1000 ms: the guard
    [delay < 0] never fires. *)
Lemma tickDelay_bounds :
  tickDelay now start st = targetTime now start st - now
  ∧ 1 <= tickDelay now start st <= 1000.
Proof.
  unfold tickDelay. pose proof secs_bounds. pose proof targetTime_delta.
  zbool; lia.
Qed.

(** The interval block reduces to one test on the tick's offset inside its
    second. *)
Lemma intervalNotifications_spec :
  intervalNotifications now start st
  = if bool_decide (0 < secs ∧ secs `mod` 180 = 0 ∧ ms `mod` 1000 < 100)
    then [IntervalNotification secs] else [].
Proof.
  pose proof secs_bounds as Hb. fold ms secs in Hb.
  unfold intervalNotifications, sendIntervalNotification, Js.rem, Js.floor_div.
  fold ms secs.
  assert (Hm : ms `mod` 1000 = ms - secs * 1000).
  { symmetry. apply Z.mod_unique_pos with secs; lia. }
  destruct (Z.ltb_spec 0 secs) as [Hpos|Hpos]; cbn [andb].
  2: { rewrite bool_decide_eq_false_2; [done | lia]. }
  rewrite Z.rem_mod_nonneg by lia.
  destruct (Z.eqb_spec (secs `mod` 180) 0) as [H180|H180].
  2: { rewrite bool_decide_eq_false_2; [done | tauto]. }
  assert (Hk : secs = 180 * (secs / 180)).
  { pose proof (Z.div_mod secs 180 ltac:(lia)). lia. }
  destruct (decide (ms `mod` 1000 < 100)) as [Hw|Hw].
  - rewrite bool_decide_eq_true_2 by tauto.
    assert ((ms - 100) / 1000 = secs - 1) as ->.
    { symmetry. apply Z.div_unique with (ms - 100 - (secs - 1) * 1000); lia. }
    assert ((secs - 1) / 180 = secs / 180 - 1) as ->.
    { symmetry. apply Z.div_unique with 179; lia. }
    destruct (Z.ltb_spec (secs / 180 - 1) (secs / 180)); [done | lia].
  - rewrite bool_decide_eq_false_2 by tauto.
    assert ((ms - 100) / 1000 = secs) as ->.
    { symmetry. apply Z.div_unique with (ms - 100 - secs * 1000); lia. }
    destruct (Z.ltb_spec (secs / 180) (secs / 180)); [lia | done].
Qed.

End TickFacts.

Lemma notified_app (a b : list Effect) :
  notified (a ++ b) = notified a ++ notified b.
Proof. apply omap_app. Qed.

Lemma notified_clearPending (st : AppTick.State) :
  notified (AppTick.clearPending st) = [].
Proof. unfold AppTick.clearPending. by destruct (AppTick.timeoutRef st). Qed.

(** What one run of [tick] does, by cases on its two guards. *)
Lemma tick_cases (now : Z) (st : AppTick.State) :
  (AppTick.tick now st = (st, [])
   ∧ (AppTick.isTimerActive st = false
      ∨ AppTick.startTime st = None ∨ AppTick.startTime st = Some 0))
  ∨ (∃ start,
        AppTick.startTime st = Some start ∧ start ≠ 0
        ∧ AppTick.isTimerActive st = true
        ∧ ((AppTick.trainingDuration st
              <= AppTick.totalElapsedSeconds now start st
            ∧ AppTick.tick now st
              = AppTick.handleTimerComplete
                  (AppTick.setTimeRemaining 0 st))
           ∨ (AppTick.totalElapsedSeconds now start st
                < AppTick.trainingDuration st
              ∧ AppTick.tick now st
                = (AppTick.schedule now (AppTick.tickDelay now start st)
                     (AppTick.setTimeRemaining
                        (AppTick.trainingDuration st
                         - AppTick.totalElapsedSeconds now start st) st),
                   AppTick.intervalNotifications now start st
                     ++ [SetTimeout (AppTick.tickDelay now start st)])))).
Proof.
  unfold AppTick.tick.
  destruct (AppTick.startTime st) as [start|] eqn:Hs; [|left; auto].
  destruct (AppTick.isTimerActive st) eqn:Ha; cbn [negb orb]; [|left; auto].
  destruct (Z.eqb_spec start 0) as [->|Hne]; [left; auto|].
  right. exists start. repeat split; try done.
  unfold AppTick.newTimeRemaining.
  destruct (Z.eqb_spec
              (0 `max` (AppTick.trainingDuration st
                        - AppTick.totalElapsedSeconds now start st)) 0)
    as [Hz|Hz].
  - left. split; [lia|]. by rewrite Hz.
  - right. split; [lia|]. by rewrite Z.max_r by lia.
Qed.

(** C1, as amended. One run of [tick] emits at most one interval
    notification. It emits one exactly when the session is running and not
    finished by this tick, the elapsed whole seconds are a positive exact
    multiple of 180, and the tick runs within the first 100 ms of that second;
    the notification then carries that elapsed value. A tick that lands on a
    second that is not a multiple of 180 emits none, whatever boundaries lie
    between it and the previous tick. *)
Theorem tick_interval_notification (now : Z) (st : AppTick.State) :
  let out := (AppTick.tick now st).2 in
  (length (notified out) <= 1)%nat
  ∧ (∀ n, n ∈ notified out →
       ∃ start,
         AppTick.startTime st = Some start
         ∧ AppTick.isTimerActive st = true
         ∧ n = AppTick.totalElapsedSeconds now start st
         ∧ 0 < n < AppTick.trainingDuration st
         ∧ n `mod` 180 = 0
         ∧ AppTick.totalElapsedMs now start st `mod` 1000 < 100)
  ∧ (∀ start,
       AppTick.startTime st = Some start → start ≠ 0 →
       AppTick.isTimerActive st = true →
       0 < AppTick.totalElapsedSeconds now start st
         < AppTick.trainingDuration st →
       AppTick.totalElapsedSeconds now start st `mod` 180 = 0 →
       AppTick.totalElapsedMs now start st `mod` 1000 < 100 →
       notified out = [AppTick.totalElapsedSeconds now start st])
  ∧ (∀ start,
       AppTick.startTime st = Some start →
       AppTick.totalElapsedSeconds now start st `mod` 180 ≠ 0 →
       notified out = []).
Proof.
  cbn zeta.
  destruct (tick_cases now st)
    as [[-> Hoff]|(start & Hs & Hne & Ha & [[Hdone ->]|[Hrun ->]])].
  - cbn. split; [lia|]. split; [|split]; [| |done].
    + intros n Hn. by apply elem_of_nil in Hn.
    + intros start' Hs' Hne' Ha'. destruct Hoff as [?|[?|?]]; congruence.
  - assert (Hnone : notified (AppTick.handleTimerComplete
                                (AppTick.setTimeRemaining 0 st)).2 = []).
    { cbn [snd AppTick.handleTimerComplete]. rewrite notified_app.
      by rewrite notified_clearPending. }
    rewrite Hnone. cbn. split; [lia|]. split; [|split]; [| |done].
    + intros n Hn. by apply elem_of_nil in Hn.
    + intros start' Hs' _ _ Hlt. rewrite Hs in Hs'.
      injection Hs' as <-. lia.
  - cbn [snd]. rewrite notified_app, intervalNotifications_spec.
    cbn [notified omap]. rewrite app_nil_r.
    assert (Hsame : ∀ start', AppTick.startTime st = Some start' →
                              start' = start) by (intros; congruence).
    case_bool_decide as Hc; cbn.
    + destruct Hc as (Hpos & Hmod & Hw).
      split; [lia|]. split; [|split].
      * intros n Hn. apply list_elem_of_singleton in Hn as ->.
        exists start.
        split; [done|]. split; [done|]. split; [done|].
        split; [lia|]. done.
      * intros start' Hs' _ _ _ _ _. by rewrite (Hsame _ Hs').
      * intros start' Hs' Hmod'. rewrite (Hsame _ Hs') in Hmod'. done.
    + split; [lia|]. split; [|split]; [| |done].
      * intros n Hn. by apply elem_of_nil in Hn.
      * intros start' Hs' _ _ Hlt Hmod Hw. rewrite (Hsame _ Hs') in *.
        exfalso. apply Hc. split; [lia|]. done.
Qed.

(** The notification at the first boundary: a tick 50 ms into second 180. *)
Example tick_notifies_at_180 :
  notified
    (AppTick.tick 181050 (AppTick.run [AppTick.PressStart 1000]
                            AppTick.initial).1).2
  = [180].
Proof. vm_compute. reflexivity. Qed.

(** The same second, reached 150 ms late, is not notified. *)
Example tick_late_at_180 :
  notified
    (AppTick.tick 181150 (AppTick.run [AppTick.PressStart 1000]
                            AppTick.initial).1).2
  = [].
Proof. vm_compute. reflexivity. Qed.

(** The timeout's tick 3 ms into second 180 changes [timeRemaining]; the
    lifecycle effect then re-runs and calls [tick] again, 10 ms into the same
    second: the boundary is notified by both runs. *)
Example boundary_notified_by_both_runs :
  notified
    (AppTick.run [AppTick.Tick 181003; AppTick.Lifecycle 181010]
       (AppTick.run [AppTick.PressStart 1000] AppTick.initial).1).2
  = [180; 180].
Proof. vm_compute. reflexivity. Qed.

(** C1, as stated, fails: after a tick at elapsed 100 s, a tick delayed by
    400 s lands on elapsed 500 s and notifies neither boundary 180 nor 360. *)
Lemma catchUp_counterexample : ¬ catchUpClaim.
Proof.
  intros H.
  specialize (H 1000 [101000] 501000 ltac:(lia) eq_refl ltac:(lia)).
  vm_compute in H. discriminate H.
Qed.

(** C3. A tick of a running session that does not finish it schedules the
    next tick after [max 1 (targetInstant - now)] ms, where [targetInstant]
    is anchored to the session start plus the paused time. *)
Theorem tick_schedules_next (now start : Z) (st : AppTick.State) :
  AppTick.startTime st = Some start → start ≠ 0 →
  AppTick.isTimerActive st = true →
  AppTick.totalElapsedSeconds now start st < AppTick.trainingDuration st →
  let targetInstant :=
    start + AppTick.pausedTime st
    + (AppTick.totalElapsedSeconds now start st + 1) * 1000 in
  let delay := Z.max 1 (targetInstant - now) in
  AppTick.timeoutRef (AppTick.tick now st).1 = Some delay
  ∧ last (AppTick.tick now st).2 = Some (SetTimeout delay).
Proof.
  intros Hs Hne Ha Hrun. cbn zeta.
  destruct (tick_cases now st)
    as [[_ [H|[H|H]]]|(start' & Hs' & _ & _ & [[Hdone _]|[_ ->]])];
    try congruence; rewrite Hs in Hs'; injection Hs' as <-; [lia|].
  pose proof (tickDelay_bounds now start st) as [Hd Hb].
  unfold AppTick.targetTime in Hd. rewrite Z.max_r by lia.
  rewrite <- Hd. cbn [fst snd AppTick.schedule AppTick.timeoutRef].
  split; [done | apply last_snoc].
Qed.

Lemma tick_schedules_next_witness :
  let st := (AppTick.run [AppTick.PressStart 1000] AppTick.initial).1 in
  AppTick.timeoutRef (AppTick.tick 1400 st).1 = Some 600
  ∧ last (AppTick.tick 1400 st).2 = Some (SetTimeout 600).
Proof.
  apply (tick_schedules_next 1400 1000
           (AppTick.run [AppTick.PressStart 1000] AppTick.initial).1);
    vm_compute; congruence.
Defined.

(** ** The interval countdown of [src/App.tsx] *)

(** C10, as stated, fails: choosing the 15-minute preset on the start screen
    leaves [timeRemaining] at 1800 with [trainingDuration] at 900, and the
    derived interval index is -4. *)
Lemma countdown_counterexample : ¬ countdownClaim.
Proof.
  intros H. specialize (H [AppTick.PressPreset AppTick.P15] eq_refl).
  destruct H as (_ & _ & _ & H). vm_compute in H. by apply H.
Qed.

(** C10, as amended. When [timeRemaining] does not exceed [trainingDuration]
    (the elapsed seconds are not negative), the interval countdown is 0 when
    no time remains and lies in 1..180 otherwise; it shows 180 on an exact
    multiple of 180 with time remaining; and the interval index is at least
    1. *)
Theorem interval_countdown_range (st : AppTick.State) :
  AppTick.timeRemaining st <= AppTick.trainingDuration st →
  (AppTick.timeRemaining st = 0 → AppTick.currentIntervalRemaining st = 0)
  ∧ (AppTick.timeRemaining st ≠ 0 →
     1 <= AppTick.currentIntervalRemaining st <= 180)
  ∧ (AppTick.timeRemaining st ≠ 0 →
     Js.rem (AppTick.elapsedSeconds st) 180 = 0 →
     AppTick.currentIntervalRemaining st = 180)
  ∧ AppTick.currentIntervalIndex st
    = AppTick.elapsedSeconds st / 180 + 1
  ∧ 1 <= AppTick.currentIntervalIndex st.
Proof.
  intros Hle.
  unfold AppTick.currentIntervalRemaining, AppTick.currentIntervalIndex,
    Js.rem, Js.floor_div.
  assert (He : 0 <= AppTick.elapsedSeconds st)
    by (unfold AppTick.elapsedSeconds; lia).
  rewrite Z.rem_mod_nonneg by lia.
  pose proof (Z.mod_pos_bound (AppTick.elapsedSeconds st) 180 ltac:(lia)).
  pose proof (Z.div_pos (AppTick.elapsedSeconds st) 180 He ltac:(lia)).
  split; [|split; [|split; [|split]]].
  - intros ->. done.
  - intros Hne. zbool; lia.
  - intros Hne Hz. rewrite Hz. zbool; lia.
  - done.
  - lia.
Qed.

Lemma interval_countdown_range_witness :
  let st := (AppTick.run [AppTick.PressStart 1000; AppTick.Tick 361000]
               AppTick.initial).1 in
  AppTick.timeRemaining st = 1440
  ∧ AppTick.currentIntervalRemaining st = 180
  ∧ 1 <= AppTick.currentIntervalIndex st.
Proof.
  pose proof (interval_countdown_range
                (AppTick.run [AppTick.PressStart 1000; AppTick.Tick 361000]
                   AppTick.initial).1 ltac:(vm_compute; congruence))
    as (_ & _ & H180 & _ & Hidx).
  split; [reflexivity|]. split.
  - apply H180; vm_compute; congruence.
  - exact Hidx.
Defined.

(** *** On the timer screen the elapsed seconds are never negative

    [tickInv] holds initially and is kept by every event the screen lets
    through, provided the clock readings never go back. *)

Lemma tickInv_initial (clock : Z) : tickInv clock AppTick.initial.
Proof. repeat split; cbn; intros; (discriminate || lia). Qed.

Lemma tickInv_clock (c1 c2 : Z) (st : AppTick.State) :
  c1 <= c2 → tickInv c1 st → tickInv c2 st.
Proof.
  intros Hc (H1 & H2 & H3). split; [done|]. split.
  - intros Ha. destruct (H2 Ha) as [Hp Hs]. split; [done|].
    intros start Hst. specialize (Hs start Hst). lia.
  - intros Hp. destruct (H3 Hp) as (p & Hp1 & Hp2 & Hp3).
    exists p. split; [done|]. split; [lia|done].
Qed.

Lemma tickInv_tick (clock now : Z) (st : AppTick.State) :
  tickInv clock st → clock <= now → tickInv now (AppTick.tick now st).1.
Proof.
  intros (H1 & H2 & H3) Hclock.
  destruct (tick_cases now st)
    as [[-> _]|(start & Hs & Hne & Ha & [[Hdone ->]|[Hrun ->]])].
  - cbn. by apply tickInv_clock with clock.
  - destruct (H2 Ha) as [Hp _].
    split; [|split]; unfold AppTick.timerScreen; cbn; rewrite ?Hp;
      intros; discriminate.
  - destruct (H2 Ha) as [Hp Hanchor]. specialize (Hanchor start Hs).
    assert (Hsecs : 0 <= AppTick.totalElapsedSeconds now start st).
    { unfold AppTick.totalElapsedSeconds, AppTick.totalElapsedMs,
        Js.floor_div. apply Z.div_pos; lia. }
    split; [|split]; unfold AppTick.timerScreen; cbn; rewrite ?Ha, ?Hp.
    + intros _. lia.
    + intros _. split; [done|]. intros start' Hs'. rewrite Hs in Hs'.
      injection Hs' as <-. lia.
    + intros; discriminate.
Qed.

Lemma tickInv_step (clock : Z) (e : AppTick.Event) (st : AppTick.State) :
  tickInv clock st →
  AppTick.offered e st = true →
  (∀ now, AppTick.reading e = Some now → clock <= now) →
  tickInv (default clock (AppTick.reading e)) (AppTick.handle e st).1.
Proof.
  intros (H1 & H2 & H3) Hoff Hclock.
  destruct e as [p|now|id|now|now| |now|now| ]; cbn [AppTick.reading default].
  - (* preset: start screen only *)
    cbn in Hoff. apply negb_true_iff in Hoff.
    unfold AppTick.timerScreen in *. apply orb_false_iff in Hoff as [Ha Hp].
    split; [|split]; unfold AppTick.timerScreen; cbn; rewrite ?Ha, ?Hp; cbn; intros; discriminate.
  - (* start *)
    cbn in Hoff. apply negb_true_iff in Hoff.
    unfold AppTick.timerScreen in Hoff.
    apply orb_false_iff in Hoff as [Ha Hp].
    cbn [AppTick.handle]. unfold AppTick.startTimer.
    destruct (Js.parseInt (AppTick.customDuration st)) as [d|].
    2: { cbn. apply tickInv_clock with clock; [apply Hclock; done|done]. }
    destruct ((d <? 5) || (120 <? d)) eqn:Hrange.
    { cbn. apply tickInv_clock with clock; [apply Hclock; done|done]. }
    apply orb_false_iff in Hrange as [Hlo Hhi].
    apply Z.ltb_ge in Hlo, Hhi.
    split; [|split]; unfold AppTick.timerScreen; cbn; rewrite ?Hp.
    + intros _. lia.
    + intros _. split; [done|]. intros start [= <-]. lia.
    + intros; discriminate.
  - (* the start notification resolved *)
    cbn. done.
  - (* stop: timer screen without the prompt *)
    cbn in Hoff. apply andb_true_iff in Hoff as [Hscreen Hp].
    apply negb_true_iff in Hp. unfold AppTick.timerScreen in *.
    rewrite Hp, orb_false_r in Hscreen.
    destruct (H2 Hscreen) as [_ Hanchor].
    specialize (Hclock now eq_refl).
    split; [|split]; unfold AppTick.timerScreen; cbn.
    + intros _. apply H1. by rewrite Hscreen.
    + intros; discriminate.
    + intros _. exists now. split; [done|]. split; [lia|].
      intros start Hst. specialize (Hanchor start Hst). lia.
  - (* continue: timer screen with the prompt *)
    cbn in Hoff. apply andb_true_iff in Hoff as [Hscreen Hp].
    destruct (H3 Hp) as (p & Hps & Hple & Hanchor).
    specialize (Hclock now eq_refl).
    split; [|split]; unfold AppTick.timerScreen; cbn.
    + intros _. by apply H1.
    + intros _. split; [done|]. intros start Hst. rewrite Hps.
      specialize (Hanchor start Hst). lia.
    + intros; discriminate.
  - (* end *)
    split; [|split]; unfold AppTick.timerScreen; cbn; intros; discriminate.
  - (* tick *)
    apply (tickInv_tick clock); [done|]. by apply Hclock.
  - (* the lifecycle effect *)
    specialize (Hclock now eq_refl). cbn [AppTick.handle].
    unfold AppTick.lifecycle.
    destruct (AppTick.isTimerActive st && Js.truthy (AppTick.startTime st)
              && (0 <? AppTick.timeRemaining st)).
    + pose proof (tickInv_tick clock now
                    (AppTick.setLastTick now (AppTick.dropTimeout st))
                    ltac:(done) Hclock) as Ht.
      by destruct (AppTick.tick now _).
    + cbn. by apply tickInv_clock with clock.
  - (* the completion notification resolved *)
    cbn. done.
Qed.

Lemma tickInv_run (es : list AppTick.Event) :
  ∀ (clock : Z) (st : AppTick.State),
    tickInv clock st →
    AppTick.gated es st = true →
    AppTick.monotone clock es = true →
    ∃ clock', tickInv clock' (AppTick.run es st).1.
Proof.
  induction es as [|e es IH]; intros clock st Hinv Hg Hm.
  - exists clock. done.
  - cbn in Hg. apply andb_true_iff in Hg as [Hoff Hg].
    cbn [AppTick.run].
    destruct (AppTick.handle e st) as [st1 out1] eqn:Hh.
    assert (Hst1 : st1 = (AppTick.handle e st).1) by by rewrite Hh.
    cbn [fst] in Hg.
    destruct (AppTick.run es st1) as [st2 out2] eqn:Hr. cbn [fst].
    assert (Hst2 : st2 = (AppTick.run es st1).1) by by rewrite Hr.
    rewrite Hst2. cbn [AppTick.monotone] in Hm.
    apply (IH (default clock (AppTick.reading e))).
    + rewrite Hst1. apply tickInv_step; [done|done|].
      intros now Hn. rewrite Hn in Hm.
      apply andb_true_iff in Hm as [Hm _]. by apply Z.leb_le.
    + done.
    + destruct (AppTick.reading e); cbn [default].
      * by apply andb_true_iff in Hm as [_ Hm].
      * done.
Qed.

(** Whenever the timer screen is shown, the elapsed seconds are not
    negative: the proviso of [interval_countdown_range] is met. *)
Lemma timerScreen_elapsed_nonneg (es : list AppTick.Event) (clock : Z) :
  AppTick.gated es AppTick.initial = true →
  AppTick.monotone clock es = true →
  AppTick.timerScreen (AppTick.run es AppTick.initial).1 = true →
  AppTick.timeRemaining (AppTick.run es AppTick.initial).1
  <= AppTick.trainingDuration (AppTick.run es AppTick.initial).1.
Proof.
  intros Hg Hm Hscreen.
  destruct (tickInv_run es clock AppTick.initial (tickInv_initial clock) Hg Hm)
    as (clock' & H1 & _).
  by apply H1.
Qed.

(** ** Validation of the requested duration *)

Example parseInt_30 : Js.parseInt "30" = Some 30.
Proof. reflexivity. Qed.

Example parseInt_prefix : Js.parseInt "  -12abc" = Some (-12).
Proof. reflexivity. Qed.

Example parseInt_hex : Js.parseInt "0x1F" = Some 31.
Proof. reflexivity. Qed.

Example parseInt_nan : Js.parseInt "abc" = None ∧ Js.parseInt "" = None.
Proof. split; reflexivity. Qed.

Lemma parseInt_preset (p : AppTick.Preset) :
  Js.parseInt (AppTick.presetLabel p) = Some (AppTick.presetMinutes p).
Proof. by destruct p. Qed.

(** C4. [startTimer] on a duration text that is not a number or is outside
    5..120 raises the invalid-duration alert, before anything else, and
    returns the state it was given; a start that raises no alert read a
    duration inside 5..120, and every duration inside the range starts the
    session. *)
Theorem startTimer_validates (now : Z) (st : AppTick.State) :
  (invalidDuration (AppTick.customDuration st) →
   AppTick.startTimer now st = (st, [AlertInvalidDuration]))
  ∧ (AlertInvalidDuration ∉ snd (AppTick.startTimer now st) →
     ∃ d, Js.parseInt (AppTick.customDuration st) = Some d ∧ 5 <= d <= 120)
  ∧ (∀ d, Js.parseInt (AppTick.customDuration st) = Some d →
          5 <= d <= 120 →
          let st' := (AppTick.startTimer now st).1 in
          (AlertInvalidDuration ∉ snd (AppTick.startTimer now st))
          ∧ (StartNotification d ∈ snd (AppTick.startTimer now st))
          ∧ AppTick.isTimerActive st' = true
          ∧ AppTick.trainingDuration st' = d * 60
          ∧ AppTick.timeRemaining st' = d * 60
          ∧ AppTick.startTime st' = Some now
          ∧ AppTick.pausedTime st' = 0).
Proof.
  unfold invalidDuration, AppTick.startTimer.
  destruct (Js.parseInt (AppTick.customDuration st)) as [d|].
  - destruct (Z.ltb_spec d 5) as [Hlo|Hlo]; cbn [orb].
    { split; [done|]. split.
      - intros Hno. exfalso. apply Hno. cbn. left.
      - intros d' [= <-] ?. lia. }
    destruct (Z.ltb_spec 120 d) as [Hhi|Hhi].
    { split; [done|]. split.
      - intros Hno. exfalso. apply Hno. cbn. left.
      - intros d' [= <-] ?. lia. }
    assert (Hno : AlertInvalidDuration
                  ∉ ([KeyboardDismiss] ++ AppTick.clearPending st
                     ++ [StartNotification d])).
    { unfold AppTick.clearPending.
      destruct (AppTick.timeoutRef st); cbn; intros Hin;
        repeat (apply elem_of_cons in Hin as [Hin|Hin]; [discriminate|]);
        by apply elem_of_nil in Hin. }
    split; [intros [?|?]; lia|]. split.
    + intros _. exists d. split; [done|lia].
    + intros d' [= <-] _. cbn. split; [done|].
      split; [|done].
      apply elem_of_cons. right. apply elem_of_app. right. left.
  - split; [done|]. split.
    + intros Hno. exfalso. apply Hno. cbn. left.
    + intros d' [=].
Qed.

Example startTimer_rejects_4 :
  AppTick.startTimer 1000 (AppTick.setCustomDuration "4" AppTick.initial)
  = (AppTick.setCustomDuration "4" AppTick.initial, [AlertInvalidDuration]).
Proof. reflexivity. Qed.

Example startTimer_rejects_text :
  AppTick.startTimer 1000 (AppTick.setCustomDuration "soon" AppTick.initial)
  = (AppTick.setCustomDuration "soon" AppTick.initial,
     [AlertInvalidDuration]).
Proof. reflexivity. Qed.

Example startTimer_accepts_120 :
  (AppTick.startTimer 1000
     (AppTick.setCustomDuration "120" AppTick.initial)).2
  = [KeyboardDismiss; StartNotification 120].
Proof. reflexivity. Qed.

(** * Properties of [TimerDisplay] *)

Section Frames.

Import TimerDisplay.

Variable p : Props.

Lemma frame_not_running (now : Z) (sv : Shared) :
  runningSV sv = 0 → frame p now sv = (sv, []).
Proof. intros H. unfold frame. by rewrite H. Qed.

Lemma frame_advances (now : Z) (sv : Shared) :
  runningSV sv ≠ 0 → live sv now < durationSV sv →
  frame p now sv = (advanced (live sv now) sv, []).
Proof.
  intros Hr Hl. unfold frame, live in *.
  destruct (Z.eqb_spec (runningSV sv) 0); [done|].
  destruct (Z.leb_spec (durationSV sv)
              (baseElapsedSV sv + (now - startMonoSV sv))); [lia|done].
Qed.

Lemma frame_reaches (now : Z) (sv : Shared) :
  runningSV sv ≠ 0 → durationSV sv <= live sv now →
  frame p now sv = (clamped sv, doneSignal p).
Proof.
  intros Hr Hl. unfold frame, live in *.
  destruct (Z.eqb_spec (runningSV sv) 0); [done|].
  destruct (Z.leb_spec (durationSV sv)
              (baseElapsedSV sv + (now - startMonoSV sv))); [done|lia].
Qed.

Lemma frames_app (a b : list Z) (sv : Shared) :
  frames p (a ++ b) sv
  = let '(sv1, sig1, samples1) := frames p a sv in
    let '(sv2, sig2, samples2) := frames p b sv1 in
    (sv2, sig1 ++ sig2, samples1 ++ samples2).
Proof.
  revert sv. induction a as [|t a IH]; intros sv; cbn [frames app].
  - by destruct (frames p b sv) as [[? ?] ?].
  - destruct (frame p t sv) as [sv1 sig1]. rewrite IH.
    destruct (frames p a sv1) as [[sv2 sig2] samples2].
    destruct (frames p b sv2) as [[sv3 sig3] samples3].
    by rewrite app_assoc.
Qed.

(** Frames of a display that is not running change nothing. *)
Lemma frames_not_running (nows : list Z) (sv : Shared) :
  runningSV sv = 0 →
  frames p nows sv = (sv, [], replicate (length nows) (renderElapsedSV sv)).
Proof.
  intros Hr. induction nows as [|t nows IH]; cbn [frames]; [done|].
  rewrite (frame_not_running t sv Hr), IH. done.
Qed.

(** Frames that stay below the duration only move the rendered value. *)
Lemma frames_advance (nows : list Z) :
  ∀ sv : Shared,
    runningSV sv ≠ 0 →
    Forall (fun t => live sv t < durationSV sv) nows →
    frames p nows sv
    = (default sv ((fun t => advanced (live sv t) sv) <$> last nows),
       [], live sv <$> nows).
Proof.
  induction nows as [|t nows IH]; intros sv Hr Hall; cbn [frames]; [done|].
  apply Forall_cons in Hall as [Ht Hall].
  rewrite (frame_advances t sv Hr Ht).
  rewrite (IH (advanced (live sv t) sv)); [|done|done].
  cbn [fmap list_fmap]. f_equal. f_equal.
  destruct nows as [|t' nows]; [done|].
  change (last (t :: t' :: nows)) with (last (t' :: nows)).
  destruct (last (t' :: nows)) eqn:Hlast; [done|].
  by apply last_None in Hlast.
Qed.

End Frames.

(** While the running flag is off, the rendered value is the base. *)
Lemma updates_render_base (us : list Update) :
  ∀ sv : TimerDisplay.Shared,
    (TimerDisplay.runningSV sv = 0 →
     TimerDisplay.renderElapsedSV sv = TimerDisplay.baseElapsedSV sv) →
    TimerDisplay.runningSV (updates us sv) = 0 →
    TimerDisplay.renderElapsedSV (updates us sv)
    = TimerDisplay.baseElapsedSV (updates us sv).
Proof.
  induction us as [|u us IH]; intros sv Hsv; cbn [updates foldl]; [done|].
  apply IH. destruct u as [p|p|p now]; cbn [update].
  - done.
  - intros _. unfold TimerDisplay.syncAnchors.
    by destruct (TimerDisplay.isRunning p), (TimerDisplay.startMonoMs p).
  - unfold TimerDisplay.frame.
    destruct (Z.eqb_spec (TimerDisplay.runningSV sv) 0); [done|].
    destruct (Z.leb_spec (TimerDisplay.durationSV sv)
                (TimerDisplay.baseElapsedSV sv
                 + (now - TimerDisplay.startMonoSV sv))); cbn; done.
Qed.

(** C8. Take any shared values a mounted [TimerDisplay] can hold. If its
    running flag is off, any run of frame callbacks leaves the shared values
    as they are, raises nothing, and the rendered value sampled after every
    frame is the same: the accumulated base. *)
Theorem render_frozen_while_not_running
  (p0 p : TimerDisplay.Props) (us : list Update) (nows : list Z) :
  let sv := updates us (TimerDisplay.mount p0) in
  TimerDisplay.runningSV sv = 0 →
  TimerDisplay.frames p nows sv
  = (sv, [], replicate (length nows) (TimerDisplay.baseElapsedSV sv)).
Proof.
  cbn zeta. intros Hr. rewrite frames_not_running by done.
  rewrite updates_render_base; done.
Qed.

Lemma render_frozen_while_not_running_witness :
  TimerDisplay.frames pausedAt65 [70000; 70016; 70033]
    (updates [SyncAnchors pausedAt65] (TimerDisplay.mount pausedAt65))
  = (updates [SyncAnchors pausedAt65] (TimerDisplay.mount pausedAt65), [],
     [65000; 65000; 65000]).
Proof.
  exact (render_frozen_while_not_running pausedAt65 pausedAt65
           [SyncAnchors pausedAt65] [70000; 70016; 70033] eq_refl).
Defined.

(** The pause sync freezes the display at the accumulated value it is
    given. *)
Lemma syncAnchors_paused (p : TimerDisplay.Props) (sv : TimerDisplay.Shared) :
  TimerDisplay.isRunning p = false →
  TimerDisplay.runningSV (TimerDisplay.syncAnchors p sv) = 0
  ∧ TimerDisplay.baseElapsedSV (TimerDisplay.syncAnchors p sv)
    = TimerDisplay.accumulatedMs p
  ∧ TimerDisplay.renderElapsedSV (TimerDisplay.syncAnchors p sv)
    = TimerDisplay.accumulatedMs p.
Proof. intros H. unfold TimerDisplay.syncAnchors. by rewrite H. Qed.

(** The label of a display frozen at 65 s of a 30-minute session. *)
Example label_frozen :
  TimerDisplay.label pausedAt65
    (TimerDisplay.syncAnchors pausedAt65 (TimerDisplay.mount pausedAt65))
  = "28:55".
Proof. vm_compute. reflexivity. Qed.

(** C9. In a running segment, let [now] be the first frame whose live
    elapsed value [base + (now - anchor)] reaches the duration, after the
    frames [before] and followed by the frames [after]. The run of frames
    renders the live value up to that frame and exactly the duration from it
    on, ends with base and rendered value equal to the duration and the
    running flag off, and schedules [onDone] onto the React Native thread
    once: no later frame raises it again. A frame never touches the state of
    [App]; only the scheduled call, run on the React Native thread, does. *)
Theorem frames_reach_duration_once
  (p : TimerDisplay.Props) (sv : TimerDisplay.Shared)
  (before after : list Z) (now : Z) :
  TimerDisplay.runningSV sv ≠ 0 →
  Forall (fun t => TimerDisplay.live sv t < TimerDisplay.durationSV sv)
    before →
  TimerDisplay.durationSV sv <= TimerDisplay.live sv now →
  TimerDisplay.frames p (before ++ now :: after) sv
  = (clamped sv, doneSignal p,
     (TimerDisplay.live sv <$> before)
       ++ replicate (S (length after)) (TimerDisplay.durationSV sv))
  ∧ (TimerDisplay.onDone p = true →
     doneSignal p = [TimerDisplay.ScheduleOnRN_onDone])
  ∧ (∀ (sys : AppDisplay.System) (t : Z),
       AppDisplay.app (AppDisplay.step (AppDisplay.Frame t) sys)
       = AppDisplay.app sys).
Proof.
  intros Hr Hbefore Hnow. split; [|split].
  - rewrite frames_app, (frames_advance p before sv Hr Hbefore).
    set (sv1 := default sv _).
    assert (Hsv1 : ∃ r, sv1 = advanced r sv).
    { subst sv1. destruct (last before); cbn; [by eexists|].
      exists (TimerDisplay.renderElapsedSV sv). by destruct sv. }
    destruct Hsv1 as [r ->].
    cbn [TimerDisplay.frames].
    rewrite (frame_reaches p now (advanced r sv)) by done.
    rewrite (frames_not_running p after (clamped (advanced r sv))) by done.
    cbn. rewrite app_nil_r. done.
  - unfold doneSignal. by intros ->.
  - intros sys t. cbn [AppDisplay.step].
    destruct (AppDisplay.display sys) as [d|]; [|done].
    by destruct (TimerDisplay.frame _ t d).
Qed.

Lemma frames_reach_duration_once_witness :
  let p := AppDisplay.props (AppDisplay.startTimer 1000 AppDisplay.initial) in
  let sv := TimerDisplay.syncAnchors p (TimerDisplay.mount p) in
  TimerDisplay.frames p [2000; 900000; 1801000; 1801016; 1801033] sv
  = (clamped sv, [TimerDisplay.ScheduleOnRN_onDone],
     [1000; 899000; 1800000; 1800000; 1800000]).
Proof.
  cbn zeta.
  pose proof (frames_reach_duration_once
                (AppDisplay.props
                   (AppDisplay.startTimer 1000 AppDisplay.initial))
                (TimerDisplay.syncAnchors
                   (AppDisplay.props
                      (AppDisplay.startTimer 1000 AppDisplay.initial))
                   (TimerDisplay.mount
                      (AppDisplay.props
                         (AppDisplay.startTimer 1000 AppDisplay.initial))))
                [2000; 900000] [1801016; 1801033] 1801000) as H.
  destruct H as [H _].
  - vm_compute. congruence.
  - repeat constructor; vm_compute; reflexivity.
  - vm_compute. congruence.
  - exact H.
Defined.

(** * The completion transition *)

(** C2, as stated, fails in both apps. With [TimerDisplay], completion leaves
    the stored [accumulatedMs] at 0 (only the display's own base is clamped);
    in [src/App.tsx] the completing tick resets [timeRemaining] to the whole
    duration, so the stored elapsed value is 0 as well. *)
Lemma clampOnCompletion_counterexample :
  ¬ clampOnCompletionDisplay ∧ ¬ clampOnCompletionTick.
Proof.
  split.
  - intros H. specialize (H 1000 1801000 ltac:(vm_compute; congruence)).
    vm_compute in H. discriminate H.
  - intros H.
    specialize (H 1000 1801000 ltac:(lia) ltac:(vm_compute; congruence)).
    vm_compute in H. discriminate H.
Qed.

Lemma completions_app (a b : list Effect) :
  completions (a ++ b) = completions a ++ completions b.
Proof. apply omap_app. Qed.

Lemma completions_clearPending (st : AppTick.State) :
  completions (AppTick.clearPending st) = [].
Proof. unfold AppTick.clearPending. by destruct (AppTick.timeoutRef st). Qed.

(** C2, as amended. When the live elapsed value reaches the duration:
    the frame callback of [TimerDisplay] sets its own base and rendered value
    to exactly the duration, turns its running flag off and schedules
    [onDone]; the [onDone] of [App] leaves the store, hence the stored
    [accumulatedMs], as it was. In [src/App.tsx] the tick that reaches the
    duration dispatches the completion notification exactly once, cancels the
    pending timeout and leaves none, resets [timeRemaining] to the training
    duration, and makes every later tick a no-op. *)
Theorem completion_transition :
  (∀ (p : TimerDisplay.Props) (sv : TimerDisplay.Shared) (now : Z),
     TimerDisplay.runningSV sv ≠ 0 →
     TimerDisplay.durationSV sv <= TimerDisplay.live sv now →
     TimerDisplay.baseElapsedSV (TimerDisplay.frame p now sv).1
     = TimerDisplay.durationSV sv
     ∧ TimerDisplay.renderElapsedSV (TimerDisplay.frame p now sv).1
       = TimerDisplay.durationSV sv
     ∧ TimerDisplay.runningSV (TimerDisplay.frame p now sv).1 = 0
     ∧ (TimerDisplay.frame p now sv).2 = doneSignal p)
  ∧ (∀ st : AppDisplay.State,
       AppDisplay.storage (AppDisplay.onDone st) = AppDisplay.storage st)
  ∧ (∀ (now start : Z) (st : AppTick.State),
       AppTick.startTime st = Some start → start ≠ 0 →
       AppTick.isTimerActive st = true →
       AppTick.trainingDuration st
       <= AppTick.totalElapsedSeconds now start st →
       let st' := (AppTick.tick now st).1 in
       let out := (AppTick.tick now st).2 in
       completions out = [AppTick.trainingDuration st / 60]
       ∧ (is_Some (AppTick.timeoutRef st) → ClearTimeout ∈ out)
       ∧ AppTick.timeoutRef st' = None
       ∧ AppTick.isTimerActive st' = false
       ∧ AppTick.timeRemaining st' = AppTick.trainingDuration st'
       ∧ ∀ now', AppTick.tick now' st' = (st', [])).
Proof.
  split; [|split].
  - intros p sv now Hr Hl. by rewrite (frame_reaches p now sv Hr Hl).
  - done.
  - intros now start st Hs Hne Ha Hdone. cbn zeta.
    destruct (tick_cases now st)
      as [[_ [H|[H|H]]]|(start' & Hs' & _ & _ & [[_ ->]|[Hrun _]])];
      try congruence.
    2: { rewrite Hs in Hs'. injection Hs' as <-. lia. }
    cbn [fst snd AppTick.handleTimerComplete].
    split; [|split; [|split; [|split; [|split]]]]; try done.
    + rewrite completions_app, completions_clearPending. done.
    + intros [d Hd]. apply elem_of_app. left.
      unfold AppTick.clearPending. cbn. rewrite Hd. left.
Qed.

Example completion_tick_once :
  let st0 := (AppTick.run [AppTick.PressStart 1000; AppTick.Tick 1800500]
                AppTick.initial).1 in
  (AppTick.tick 1801000 st0).2 = [ClearTimeout; CompleteNotification 30]
  ∧ (AppTick.tick 1802000 (AppTick.tick 1801000 st0).1).2 = [].
Proof. vm_compute. done. Qed.

(** * Pausing and resuming twice *)

(** C5, as stated, fails in both apps: with [TimerDisplay] a second resume
    moves the anchor [startMonoMs] to the later clock reading, and in
    [src/App.tsx] a second pause moves [pauseStartTime] to the later clock
    reading. *)
Lemma pauseResumeIdempotent_counterexample :
  ¬ pauseResumeIdempotentDisplay ∧ ¬ pauseResumeIdempotentTick.
Proof.
  split.
  - intros H.
    destruct (H [AppDisplay.Start 1000; AppDisplay.Pause 1500] 2000 3000
                eq_refl ltac:(lia)) as [_ Hr].
    apply (f_equal AppDisplay.startMonoMs) in Hr.
    vm_compute in Hr. discriminate Hr.
  - intros H.
    destruct (H [AppTick.PressStart 1000] 2000 3000 eq_refl ltac:(lia))
      as [Hp _].
    apply (f_equal AppTick.pauseStartTime) in Hp.
    vm_compute in Hp. discriminate Hp.
Qed.

Lemma clearPending_none (st : AppTick.State) :
  AppTick.timeoutRef st = None → AppTick.clearPending st = [].
Proof. unfold AppTick.clearPending. by intros ->. Qed.

Section Store.

Import AppDisplay.

Lemma getNumber_setNumber_eq (k : string) (v : option Z) (m : Store) :
  getNumber k (setNumber k v m) = v.
Proof.
  unfold getNumber, setNumber. destruct v as [n|].
  - by rewrite lookup_insert_eq.
  - by rewrite lookup_delete_eq.
Qed.

Lemma getNumber_setNumber_ne (k k' : string) (v : option Z) (m : Store) :
  k ≠ k' → getNumber k' (setNumber k v m) = getNumber k' m.
Proof.
  intros Hne. unfold getNumber, setNumber. destruct v as [n|].
  - by rewrite lookup_insert_ne.
  - by rewrite lookup_delete_ne.
Qed.

Lemma setNumber_setNumber (k : string) (v w : option Z) (m : Store) :
  setNumber k w (setNumber k v m) = setNumber k w m.
Proof.
  unfold setNumber. destruct v, w.
  - apply insert_insert_eq.
  - apply delete_insert_eq.
  - apply insert_delete_eq.
  - apply delete_delete_eq.
Qed.

Lemma stopTimer_startMonoMs (t : Z) (st : State) :
  startMonoMs (stopTimer t st) = None ∧ isRunning (stopTimer t st) = false.
Proof.
  split; [|done]. unfold stopTimer.
  destruct (startMonoMs st) eqn:Hs; unfold startMonoMs in *; cbn [storage].
  - apply getNumber_setNumber_eq.
  - done.
Qed.

(** [stopTimer] on a state that is already paused. *)
Lemma stopTimer_paused (t : Z) (st : State) :
  startMonoMs st = None → isRunning st = false → stopTimer t st = st.
Proof.
  intros Hs Hr. unfold stopTimer. rewrite Hs.
  destruct st; cbn in *. by subst.
Qed.

End Store.

(** C5, as amended. A repeated pause is a no-op in the app wired to
    [TimerDisplay] ([stopTimer] folds the open segment only while
    [startMonoMs] is set), and a repeated resume is a no-op in [src/App.tsx]
    ([continueTraining] folds the pause only while [pauseStartTime] is set).
    The other two handlers re-read the clock and overwrite their anchor: a
    repeated [continueTraining] with [TimerDisplay], or a repeated
    [stopTimer] in [src/App.tsx], leaves the state of a single call made at
    the later clock reading. In both apps the screen takes the pause button
    away after a pause and the resume button away after a resume. *)
Theorem pause_resume_repeated
  (d : AppDisplay.State) (a : AppTick.State) (t1 t2 : Z) :
  AppDisplay.stopTimer t2 (AppDisplay.stopTimer t1 d)
  = AppDisplay.stopTimer t1 d
  ∧ AppTick.continueTraining t2 (AppTick.continueTraining t1 a).1
    = ((AppTick.continueTraining t1 a).1, [])
  ∧ AppDisplay.continueTraining t2 (AppDisplay.continueTraining t1 d)
    = AppDisplay.continueTraining t2 d
  ∧ AppTick.stopTimer t2 (AppTick.stopTimer t1 a).1
    = ((AppTick.stopTimer t2 a).1, [])
  ∧ AppDisplay.offered (AppDisplay.Pause t2) (AppDisplay.stopTimer t1 d)
    = false
  ∧ AppDisplay.offered (AppDisplay.Resume t2)
      (AppDisplay.continueTraining t1 d) = false
  ∧ AppTick.offered (AppTick.PressStop t2) (AppTick.stopTimer t1 a).1 = false
  ∧ AppTick.offered (AppTick.PressContinue t2)
      (AppTick.continueTraining t1 a).1 = false.
Proof.
  split; [|split; [|split; [|split; [|split; [|split; [|split]]]]]].
  - destruct (stopTimer_startMonoMs t1 d) as [Hs Hr].
    by apply stopTimer_paused.
  - done.
  - unfold AppDisplay.continueTraining. cbn. f_equal.
    apply setNumber_setNumber.
  - done.
  - cbn. by rewrite ?andb_false_r.
  - cbn. by rewrite ?andb_false_r.
  - cbn. unfold AppTick.timerScreen. cbn. by rewrite ?andb_false_r.
  - cbn. unfold AppTick.timerScreen. cbn. by rewrite ?andb_false_r.
Qed.

(** In [src/App.tsx] a pause at [p] followed by a resume at [r] moves the
    anchor by the length of the pause: the elapsed time read afterwards
    leaves out exactly [r - p]. *)
Lemma pause_resume_shifts_anchor (p r now start : Z) (st : AppTick.State) :
  AppTick.totalElapsedMs now start
    (AppTick.continueTraining r (AppTick.stopTimer p st).1).1
  = AppTick.totalElapsedMs now start st - (r - p).
Proof. unfold AppTick.totalElapsedMs. cbn. lia. Qed.

Example resume_twice_reanchors :
  let st := AppDisplay.calls [AppDisplay.Start 1000; AppDisplay.Pause 1500]
              AppDisplay.initial in
  AppDisplay.startMonoMs (AppDisplay.continueTraining 2000 st) = Some 2000
  ∧ AppDisplay.startMonoMs
      (AppDisplay.continueTraining 3000 (AppDisplay.continueTraining 2000 st))
    = Some 3000.
Proof. vm_compute. done. Qed.

(** * Accounting of the running segments *)

(** C6, as stated, fails: a session started at 1000 and paused at 9000 ran
    for 8000 ms, but a [continueTraining] call at 4000, while it was running,
    moved the anchor, and the pause stores 5000. *)
Lemma accounting_counterexample : ¬ accountingClaim.
Proof.
  intros H.
  specialize (H [AppDisplay.Start 1000; AppDisplay.Resume 4000;
                 AppDisplay.Pause 9000] eq_refl).
  vm_compute in H. discriminate H.
Qed.

Lemma segmentsTotal_snoc (segs : list (Z * Z)) (a b : Z) :
  AppDisplay.segmentsTotal (segs ++ [(a, b)])
  = AppDisplay.segmentsTotal segs + (b - a).
Proof.
  unfold AppDisplay.segmentsTotal.
  induction segs as [|seg segs IH]; cbn; [lia|]. rewrite IH. lia.
Qed.

Ltac store_simpl :=
  unfold AppDisplay.startTimer, AppDisplay.stopTimer,
    AppDisplay.continueTraining, AppDisplay.endTraining in *;
  unfold AppDisplay.startMonoMs, AppDisplay.accumulatedMs in *;
  cbn [AppDisplay.storage AppDisplay.isTimerActive AppDisplay.isRunning] in *.

Lemma inStep_call (o : AppDisplay.Op) (st : AppDisplay.State)
  (s : AppDisplay.Session) :
  inStep st s → AppDisplay.offered o st = true →
  inStep (AppDisplay.call o st) (AppDisplay.account o s).
Proof.
  unfold inStep. intros Hsim Hoff.
  destruct s as [status segs]. cbn [AppDisplay.status AppDisplay.completed] in *.
  destruct o as [p|now|now|now|]; cbn in Hoff;
    destruct status as [|start|]; cbn [AppDisplay.account AppDisplay.status
                                       AppDisplay.completed AppDisplay.call];
    try (destruct Hsim as (Ha & Hr & Hs & Hacc));
    try (rewrite Ha in Hoff); try (rewrite Hr in Hoff);
    try (rewrite Hsim in Hoff); try discriminate Hoff.
  - (* preset on the start screen *) done.
  - (* start *)
    store_simpl.
    rewrite getNumber_setNumber_eq, getNumber_setNumber_ne by done.
    by rewrite getNumber_setNumber_eq.
  - (* pause while running *)
    store_simpl.
    rewrite Hs, Hacc. cbn [default].
    rewrite getNumber_setNumber_eq, getNumber_setNumber_ne by done.
    rewrite getNumber_setNumber_eq, segmentsTotal_snoc. done.
  - (* resume while paused *)
    store_simpl.
    rewrite getNumber_setNumber_eq, getNumber_setNumber_ne by done.
    done.
  - (* end while paused *) done.
Qed.

Lemma inStep_calls (os : list AppDisplay.Op) :
  ∀ (st : AppDisplay.State) (s : AppDisplay.Session),
    inStep st s → AppDisplay.gated os st = true →
    inStep (AppDisplay.calls os st) (AppDisplay.accounts os s).
Proof.
  induction os as [|o os IH]; intros st s Hsim Hg; [done|].
  cbn in Hg. apply andb_true_iff in Hg as [Hoff Hg].
  cbn. apply IH; [|done]. by apply inStep_call.
Qed.

(** C6, as amended. For every sequence of start, pause, resume, end and
    preset calls, each made from a button the screen shows at that moment,
    the accumulated value stored when the session is paused is the sum, over
    the completed running segments, of pause instant minus segment-start
    instant. *)
Theorem accumulated_is_running_time (os : list AppDisplay.Op) :
  AppDisplay.gated os AppDisplay.initial = true →
  AppDisplay.isPaused (AppDisplay.accounts os AppDisplay.idle) = true →
  AppDisplay.accumulatedMs (AppDisplay.calls os AppDisplay.initial)
  = Some (AppDisplay.segmentsTotal
            (AppDisplay.completed (AppDisplay.accounts os AppDisplay.idle))).
Proof.
  intros Hg Hp.
  pose proof (inStep_calls os AppDisplay.initial AppDisplay.idle
                ltac:(done) Hg) as Hsim.
  unfold inStep, AppDisplay.isPaused in *.
  destruct (AppDisplay.status (AppDisplay.accounts os AppDisplay.idle));
    try discriminate Hp.
  by destruct Hsim as (_ & _ & _ & Hacc).
Qed.

Lemma accumulated_is_running_time_witness :
  AppDisplay.accumulatedMs
    (AppDisplay.calls
       [AppDisplay.Start 1000; AppDisplay.Pause 4000; AppDisplay.Resume 10000;
        AppDisplay.Pause 15000] AppDisplay.initial)
  = Some 8000.
Proof.
  exact (accumulated_is_running_time
           [AppDisplay.Start 1000; AppDisplay.Pause 4000;
            AppDisplay.Resume 10000; AppDisplay.Pause 15000]
           eq_refl eq_refl).
Defined.

(** With [TimerDisplay] there is no duration text: the training duration is
    one of the three presets whatever is called, so every start runs on a
    duration of 15, 30 or 60 minutes. *)
Lemma display_duration_preset (os : list AppDisplay.Op) :
  ∀ st : AppDisplay.State,
    AppDisplay.trainingDuration st ∈ [15 * 60; 30 * 60; 60 * 60] →
    AppDisplay.trainingDuration (AppDisplay.calls os st)
    ∈ [15 * 60; 30 * 60; 60 * 60].
Proof.
  induction os as [|o os IH]; intros st Hst; [done|].
  cbn. apply IH. destruct o as [[| |]|now|now|now|]; cbn; try done.
  - apply list_elem_of_here.
  - apply list_elem_of_further, list_elem_of_here.
  - do 2 apply list_elem_of_further. apply list_elem_of_here.
Qed.

(** * Persistence across restarts *)

(** C7, as stated, fails: the mount effect clears the store, so the session
    on disk is gone after startup. *)
Lemma persistence_counterexample : ¬ persistenceClaim.
Proof.
  intros H. destruct (H sessionOnDisk 65000 1000 eq_refl eq_refl) as [Ha _].
  vm_compute in Ha. discriminate Ha.
Qed.

(** C7, as amended. While a session runs, the handlers write
    [accumulatedMs] and [startMonoMs] through the store. A fresh process
    clears the store on mount: whatever it held (a session in progress,
    nothing, values that are not numbers), startup ends in the idle state
    with both values absent, so no session is taken up again. *)
Theorem startup_clears_store :
  (∀ disk : gmap string AppDisplay.Stored,
     AppDisplay.startup disk = AppDisplay.initial
     ∧ AppDisplay.isTimerActive (AppDisplay.startup disk) = false
     ∧ AppDisplay.isRunning (AppDisplay.startup disk) = false
     ∧ AppDisplay.accumulatedMs (AppDisplay.startup disk) = None
     ∧ AppDisplay.startMonoMs (AppDisplay.startup disk) = None)
  ∧ (∀ (now : Z) (st : AppDisplay.State),
       AppDisplay.accumulatedMs (AppDisplay.startTimer now st) = Some 0
       ∧ AppDisplay.startMonoMs (AppDisplay.startTimer now st) = Some now)
  ∧ (∀ (now start : Z) (st : AppDisplay.State),
       AppDisplay.startMonoMs st = Some start →
       AppDisplay.accumulatedMs (AppDisplay.stopTimer now st)
       = Some (default 0 (AppDisplay.accumulatedMs st) + (now - start))
       ∧ AppDisplay.startMonoMs (AppDisplay.stopTimer now st) = None)
  ∧ (∀ (now : Z) (st : AppDisplay.State),
       AppDisplay.startMonoMs (AppDisplay.continueTraining now st) = Some now
       ∧ AppDisplay.accumulatedMs (AppDisplay.continueTraining now st)
         = AppDisplay.accumulatedMs st).
Proof.
  split; [|split; [|split]].
  - intros disk. done.
  - intros now st. store_simpl.
    rewrite getNumber_setNumber_eq, getNumber_setNumber_ne by done.
    by rewrite getNumber_setNumber_eq.
  - intros now start st Hs. store_simpl. rewrite Hs.
    rewrite getNumber_setNumber_eq, getNumber_setNumber_ne by done.
    by rewrite getNumber_setNumber_eq.
  - intros now st. store_simpl.
    rewrite getNumber_setNumber_eq, getNumber_setNumber_ne by done.
    done.
Qed.

Example startup_with_corrupt_store :
  AppDisplay.startup
    (<["accumulatedMs" := AppDisplay.StoredString "12x"]> sessionOnDisk)
  = AppDisplay.initial.
Proof. reflexivity. Qed.


(** * Further properties of [src/App.tsx]: the two countdowns on screen *)

(** X1. When the training duration is a whole number of 3-minute intervals,
    the index of the current interval and the number of intervals left add
    up to the number of intervals plus one: the current interval counts
    among those left. *)
Theorem interval_counts_add_up (st : AppTick.State) :
  AppTick.trainingDuration st `mod` 180 = 0 →
  AppTick.currentIntervalIndex st + AppTick.intervalsLeft st
  = AppTick.trainingDuration st / 180 + 1.
Proof.
  intros Hd.
  unfold AppTick.currentIntervalIndex, AppTick.intervalsLeft,
    AppTick.elapsedSeconds, Js.floor_div, Js.ceil_div.
  pose proof (Z.div_mod (AppTick.trainingDuration st) 180 ltac:(lia)) as HD.
  rewrite Hd, Z.add_0_r in HD.
  set (n := AppTick.trainingDuration st / 180) in *.
  rewrite HD.
  replace (180 * n - AppTick.timeRemaining st)
    with (- AppTick.timeRemaining st + n * 180) by lia.
  rewrite Z.div_add by lia. lia.
Qed.

Lemma interval_counts_add_up_witness :
  let st := (AppTick.run [AppTick.PressStart 1000; AppTick.Tick 401000]
               AppTick.initial).1 in
  AppTick.currentIntervalIndex st + AppTick.intervalsLeft st = 11.
Proof.
  exact (interval_counts_add_up
           (AppTick.run [AppTick.PressStart 1000; AppTick.Tick 401000]
              AppTick.initial).1 eq_refl).
Defined.

(** X2. With a training duration that is a whole number of intervals, some
    time remaining and no negative elapsed time, the total remaining time is
    the interval countdown plus 180 s for every interval left after the
    current one: the two timers on screen agree. *)
Theorem total_remaining_decomposes (st : AppTick.State) :
  AppTick.trainingDuration st `mod` 180 = 0 →
  AppTick.timeRemaining st ≠ 0 →
  AppTick.timeRemaining st <= AppTick.trainingDuration st →
  AppTick.timeRemaining st
  = 180 * (AppTick.intervalsLeft st - 1) + AppTick.currentIntervalRemaining st.
Proof.
  intros Hd Hne Hle.
  unfold AppTick.currentIntervalRemaining, AppTick.intervalsLeft,
    AppTick.elapsedSeconds, Js.rem, Js.ceil_div.
  destruct (Z.eqb_spec (AppTick.timeRemaining st) 0) as [|_]; [done|].
  rewrite Z.rem_mod_nonneg by lia.
  pose proof (Z.div_mod (AppTick.trainingDuration st) 180 ltac:(lia)) as HD.
  rewrite Hd, Z.add_0_r in HD.
  set (n := AppTick.trainingDuration st / 180) in *.
  set (e := AppTick.trainingDuration st - AppTick.timeRemaining st).
  assert (Hneg : - AppTick.timeRemaining st = e + (- n) * 180)
    by (subst e; lia).
  rewrite Hneg, Z.div_add by lia.
  pose proof (Z.div_mod e 180 ltac:(lia)).
  pose proof (Z.mod_pos_bound e 180 ltac:(lia)).
  destruct (Z.eqb_spec (e `mod` 180) 0); subst e; lia.
Qed.

Lemma total_remaining_decomposes_witness :
  let st := (AppTick.run [AppTick.PressStart 1000; AppTick.Tick 401000]
               AppTick.initial).1 in
  AppTick.timeRemaining st
  = 180 * (AppTick.intervalsLeft st - 1) + AppTick.currentIntervalRemaining st.
Proof.
  exact (total_remaining_decomposes
           (AppTick.run [AppTick.PressStart 1000; AppTick.Tick 401000]
              AppTick.initial).1 eq_refl
           ltac:(vm_compute; congruence) ltac:(vm_compute; congruence)).
Defined.

(** X3. While the elapsed time is not negative, the interval kind is
    "Relaxed" in the first interval and flips whenever 180 more seconds have
    elapsed. *)
Theorem interval_kind_alternates (st st' : AppTick.State) :
  AppTick.timeRemaining st <= AppTick.trainingDuration st →
  (AppTick.elapsedSeconds st < 180 →
   AppTick.intervalKindLabel st = "Relaxed")
  ∧ (AppTick.elapsedSeconds st' = AppTick.elapsedSeconds st + 180 →
     AppTick.intervalKindLabel st' ≠ AppTick.intervalKindLabel st).
Proof.
  intros Hle.
  assert (He : 0 <= AppTick.elapsedSeconds st)
    by (unfold AppTick.elapsedSeconds; lia).
  unfold AppTick.intervalKindLabel, AppTick.currentIntervalIndex,
    Js.rem, Js.floor_div.
  pose proof (Z.div_pos (AppTick.elapsedSeconds st) 180 He ltac:(lia)) as Hq.
  split.
  - intros Hlt. rewrite Z.div_small by lia. done.
  - intros ->.
    replace (AppTick.elapsedSeconds st + 180)
      with (AppTick.elapsedSeconds st + 1 * 180) by lia.
    rewrite Z.div_add by lia.
    set (q := AppTick.elapsedSeconds st / 180) in *.
    rewrite !Z.rem_mod_nonneg by lia.
    pose proof (Z.mod_pos_bound (q + 1) 2 ltac:(lia)).
    assert ((q + 1 + 1) `mod` 2 = 1 - (q + 1) `mod` 2) as ->.
    { pose proof (Z.div_mod (q + 1) 2 ltac:(lia)).
      symmetry. apply Z.mod_unique_pos with ((q + 1) / 2 + (q + 1) `mod` 2);
        lia. }
    destruct (Z.eqb_spec ((q + 1) `mod` 2) 1) as [->|Hne]; [done|].
    assert ((q + 1) `mod` 2 = 0) as -> by lia. done.
Qed.

Lemma interval_kind_alternates_witness :
  AppTick.intervalKindLabel
    (AppTick.run [AppTick.PressStart 1000] AppTick.initial).1 = "Relaxed".
Proof.
  apply (interval_kind_alternates
           (AppTick.run [AppTick.PressStart 1000] AppTick.initial).1
           (AppTick.run [AppTick.PressStart 1000] AppTick.initial).1
           ltac:(vm_compute; congruence)).
  reflexivity.
Defined.

(** * Further properties: the time labels *)

Section Labels.

Lemma append_cons (c : ascii) (a b : string) :
  String c a +:+ b = String c (a +:+ b).
Proof. reflexivity. Qed.

Lemma append_nil (b : string) : "" +:+ b = b.
Proof. reflexivity. Qed.

Lemma append_length (a b : string) :
  String.length (a +:+ b) = (String.length a + String.length b)%nat.
Proof.
  induction a as [|c a IH]; [done|].
  rewrite append_cons. cbn. by rewrite IH.
Qed.

(** Two concatenations with tails of the same length split the same way. *)
Lemma append_inj_tail (a a' b b' : string) :
  String.length b = String.length b' →
  a +:+ b = a' +:+ b' → a = a' ∧ b = b'.
Proof.
  intros Hlen. revert a'.
  induction a as [|c a IH]; intros [|c' a'] Heq;
    rewrite ?append_cons, ?append_nil in Heq.
  - done.
  - apply (f_equal String.length) in Heq. cbn in Heq.
    rewrite append_length in Heq. lia.
  - apply (f_equal String.length) in Heq. cbn in Heq.
    rewrite append_length in Heq. lia.
  - injection Heq as -> Heq. destruct (IH _ Heq) as [-> ->]. done.
Qed.

Lemma pretty_N_go_length (x : N) :
  ∀ s, (String.length s <= String.length (pretty_N_go x s))%nat.
Proof.
  induction (N.lt_wf_0 x) as [x _ IH]; intros s.
  assert (x = 0 ∨ 0 < x)%N as [->|Hpos] by lia; [by rewrite pretty_N_go_0|].
  rewrite pretty_N_go_step by done.
  etrans; [|apply IH; by apply N.div_lt]. cbn. lia.
Qed.

(** The decimal rendering of a positive number starts with a digit that is
    not 0. *)
Lemma pretty_N_go_leading (x : N) :
  ∀ s, (0 < x)%N →
       ∃ d r, (0 < d < 10)%N ∧ pretty_N_go x s = String (pretty_N_char d) r.
Proof.
  induction (N.lt_wf_0 x) as [x _ IH]; intros s Hpos.
  rewrite pretty_N_go_step by done.
  assert (x < 10 ∨ 10 ≤ x)%N as [Hlt|Hge] by lia.
  - rewrite N.div_small, N.mod_small, pretty_N_go_0 by done.
    exists x, s. split; [lia|done].
  - apply IH; [by apply N.div_lt|].
    apply N.div_str_pos. lia.
Qed.

Lemma pretty_Z_pos (n : Z) :
  0 < n → pretty n = pretty_N_go (Z.to_N n) "".
Proof.
  intros Hn. destruct n as [|p|p]; try lia.
  unfold pretty, pretty_Z, pretty, pretty_positive, pretty, pretty_N.
  cbn [Z.to_N]. by destruct (decide (N.pos p = 0%N)).
Qed.

Lemma pretty_one_digit (n : Z) :
  0 <= n < 10 → String.length (pretty n) = 1%nat.
Proof.
  intros Hn.
  assert (n = 0 ∨ n = 1 ∨ n = 2 ∨ n = 3 ∨ n = 4 ∨ n = 5 ∨ n = 6 ∨ n = 7
          ∨ n = 8 ∨ n = 9) as Hcases by lia.
  repeat (destruct Hcases as [->|Hcases]; [reflexivity|]). by subst.
Qed.

Lemma pretty_two_digits (n : Z) :
  10 <= n → (2 <= String.length (pretty n))%nat
            ∧ (n < 100 → String.length (pretty n) = 2%nat).
Proof.
  intros Hn. rewrite pretty_Z_pos by lia.
  assert (10 ≤ Z.to_N n)%N as Hx by lia.
  rewrite 2!pretty_N_go_step
    by (try apply N.div_str_pos; lia).
  split.
  - etrans; [|apply pretty_N_go_length]. cbn. lia.
  - intros Hlt. rewrite N.div_small; [done|].
    apply N.Div0.div_lt_upper_bound. lia.
Qed.

Lemma pretty_leading (n : Z) :
  0 < n → ∃ c r, pretty n = String c r ∧ c ≠ "0"%char.
Proof.
  intros Hn. rewrite pretty_Z_pos by done.
  destruct (pretty_N_go_leading (Z.to_N n) "" ltac:(lia))
    as (d & r & Hd & ->).
  exists (pretty_N_char d), r. split; [done|].
  intros Hc. change "0"%char with (pretty_N_char 0) in Hc.
  apply pretty_N_char_inj in Hc; lia.
Qed.

(** [padStart (2, "0")] of a decimal rendering is the two-digit form used by
    [formatMs]. *)
Lemma padStart_twoDigits (n : Z) :
  0 <= n → Js.padStart 2 "0" (pretty n) = TimerDisplay.twoDigits n.
Proof.
  intros Hn. unfold Js.padStart, TimerDisplay.twoDigits.
  destruct (Z.ltb_spec n 10) as [Hlt|Hge].
  - by rewrite pretty_one_digit by lia.
  - destruct (pretty_two_digits n Hge) as [Hlen _].
    replace (2 - String.length (pretty n))%nat with 0%nat by lia. done.
Qed.

Lemma twoDigits_length (n : Z) :
  0 <= n < 100 → String.length (TimerDisplay.twoDigits n) = 2%nat.
Proof.
  intros Hn. unfold TimerDisplay.twoDigits.
  destruct (Z.ltb_spec n 10) as [Hlt|Hge].
  - rewrite append_length. cbn. by rewrite pretty_one_digit by lia.
  - by apply pretty_two_digits; lia.
Qed.

Lemma twoDigits_inj (a b : Z) :
  0 <= a → 0 <= b →
  TimerDisplay.twoDigits a = TimerDisplay.twoDigits b → a = b.
Proof.
  intros Ha Hb. unfold TimerDisplay.twoDigits.
  destruct (Z.ltb_spec a 10) as [Ha10|Ha10],
           (Z.ltb_spec b 10) as [Hb10|Hb10];
    rewrite ?append_cons, ?append_nil; intros Heq.
  - injection Heq as Heq. by apply (inj pretty).
  - destruct (pretty_leading b ltac:(lia)) as (c & r & Hr & Hc).
    rewrite Hr in Heq. by injection Heq as <- _.
  - destruct (pretty_leading a ltac:(lia)) as (c & r & Hr & Hc).
    rewrite Hr in Heq. by injection Heq as -> _.
  - by apply (inj pretty).
Qed.

End Labels.

(** X4. [formatMs] shows the whole second a millisecond count falls in, and
    nothing else: two counts get the same label exactly when, negative
    counts taken as 0, they fall in the same second. *)
Theorem formatMs_same_label (a b : Z) :
  TimerDisplay.formatMs a = TimerDisplay.formatMs b
  ↔ Z.max 0 a / 1000 = Z.max 0 b / 1000.
Proof.
  assert (Hform : ∀ ms,
    TimerDisplay.formatMs ms
    = TimerDisplay.twoDigits (Z.max 0 ms / 1000 / 60) +:+ ":"
      +:+ TimerDisplay.twoDigits ((Z.max 0 ms / 1000) `mod` 60)).
  { intros ms. unfold TimerDisplay.formatMs, Js.floor_div, Js.rem.
    assert ((if ms <? 0 then 0 else ms) = Z.max 0 ms) as ->
      by (destruct (Z.ltb_spec ms 0); lia).
    rewrite Z.rem_mod_nonneg; [done| |lia].
    apply Z.div_pos; lia. }
  rewrite !Hform.
  set (x := Z.max 0 a / 1000). set (y := Z.max 0 b / 1000).
  assert (Hx : 0 <= x) by (apply Z.div_pos; lia).
  assert (Hy : 0 <= y) by (apply Z.div_pos; lia).
  split; [|by intros ->].
  intros Heq.
  pose proof (Z.mod_pos_bound x 60 ltac:(lia)).
  pose proof (Z.mod_pos_bound y 60 ltac:(lia)).
  apply append_inj_tail in Heq as [Hm Hs].
  2: { rewrite !append_length, !twoDigits_length by lia. done. }
  rewrite !append_cons, !append_nil in Hs. injection Hs as Hs.
  apply twoDigits_inj in Hm; [|by apply Z.div_pos; lia..].
  apply twoDigits_inj in Hs; [|lia..].
  rewrite (Z.div_mod x 60), (Z.div_mod y 60) by lia. lia.
Qed.

(** X5. On a count of seconds that is not negative, [formatTime] of
    [src/App.tsx] and [formatMs] of [TimerDisplay] print the same label. *)
Theorem formatTime_formatMs (seconds : Z) :
  0 <= seconds →
  AppTick.formatTime seconds = TimerDisplay.formatMs (seconds * 1000).
Proof.
  intros Hs. unfold AppTick.formatTime, TimerDisplay.formatMs, Js.floor_div.
  destruct (Z.ltb_spec (seconds * 1000) 0); [lia|].
  rewrite Z.div_mul by lia.
  rewrite !padStart_twoDigits; [done| |].
  - unfold Js.rem. rewrite Z.rem_mod_nonneg by lia.
    apply Z.mod_pos_bound. lia.
  - apply Z.div_pos; lia.
Qed.

Lemma formatTime_formatMs_witness :
  AppTick.formatTime 1735 = TimerDisplay.formatMs 1735000
  ∧ AppTick.formatTime 1735 = "28:55".
Proof.
  split; [exact (formatTime_formatMs 1735 ltac:(lia))|reflexivity].
Defined.

(** X6. Under 100 minutes the label of [formatMs] is five characters long;
    from 100 minutes on it is longer. *)
Theorem formatMs_width (ms : Z) :
  (ms < 6000000 → String.length (TimerDisplay.formatMs ms) = 5%nat)
  ∧ (6000000 <= ms → (5 < String.length (TimerDisplay.formatMs ms))%nat).
Proof.
  unfold TimerDisplay.formatMs, Js.floor_div, Js.rem.
  set (c := if ms <? 0 then 0 else ms).
  assert (Hc : c = Z.max 0 ms) by (subst c; destruct (Z.ltb_spec ms 0); lia).
  assert (Hsec : 0 <= c / 1000) by (apply Z.div_pos; lia).
  rewrite Z.rem_mod_nonneg by lia.
  pose proof (Z.mod_pos_bound (c / 1000) 60 ltac:(lia)).
  rewrite !append_length. cbn [String.length].
  rewrite (twoDigits_length ((c / 1000) `mod` 60)) by lia.
  split; intros Hms.
  - rewrite twoDigits_length; [done|].
    split; [apply Z.div_pos; lia|].
    apply Z.div_lt_upper_bound; [lia|].
    apply Z.div_lt_upper_bound; lia.
  - assert (100 <= c / 1000 / 60).
    { apply Z.div_le_lower_bound; [lia|].
      apply Z.div_le_lower_bound; lia. }
    unfold TimerDisplay.twoDigits.
    destruct (Z.ltb_spec (c / 1000 / 60) 10); [lia|].
    rewrite pretty_Z_pos by lia.
    set (x := Z.to_N (c / 1000 / 60)).
    assert (100 ≤ x)%N as Hx by (subst x; lia).
    assert (10 ≤ (x `div` 10))%N as Hx1
      by (apply N.div_le_lower_bound; lia).
    assert (1 ≤ ((x `div` 10) `div` 10))%N as Hx2
      by (apply N.div_le_lower_bound; lia).
    rewrite 3!pretty_N_go_step by lia.
    match goal with
    | |- context [pretty_N_go ?y ?s] =>
        pose proof (pretty_N_go_length y s) as Hlen
    end.
    cbn [String.length] in Hlen. lia.
Qed.

(** * Further properties of [TimerDisplay]: what a run of frames renders *)

Lemma StronglySorted_fmap_mono (f : Z → Z) (l : list Z) :
  (∀ a b, a <= b → f a <= f b) →
  StronglySorted Z.le l → StronglySorted Z.le (f <$> l).
Proof.
  intros Hf. induction 1 as [|x l Hl IH Hx]; cbn; constructor; [done|].
  apply Forall_fmap. eapply Forall_impl; [exact Hx|]. intros y Hy. cbn.
  by apply Hf.
Qed.

(** X7. While the display is running, frames taken at clock readings that
    never go back render [min duration (base + (now - anchor))] each: the
    live elapsed value, never more than the duration. The rendered values
    therefore never go back either. *)
Theorem frames_render_clamped_live
  (p : TimerDisplay.Props) (nows : list Z) (sv : TimerDisplay.Shared) :
  TimerDisplay.runningSV sv ≠ 0 →
  StronglySorted Z.le nows →
  (TimerDisplay.frames p nows sv).2
  = (fun t => Z.min (TimerDisplay.durationSV sv) (TimerDisplay.live sv t))
      <$> nows
  ∧ StronglySorted Z.le (TimerDisplay.frames p nows sv).2.
Proof.
  intros Hr Hsorted.
  assert (Hform :
    (TimerDisplay.frames p nows sv).2
    = (fun t => Z.min (TimerDisplay.durationSV sv) (TimerDisplay.live sv t))
        <$> nows).
  { revert sv Hr.
    induction Hsorted as [|t rest Hrest IH Ht]; intros sv Hr; [done|].
    cbn [TimerDisplay.frames fmap list_fmap].
    destruct (Z.lt_ge_cases (TimerDisplay.live sv t)
                (TimerDisplay.durationSV sv)) as [Hlt|Hge].
    - rewrite (frame_advances p t sv Hr Hlt).
      specialize (IH (advanced (TimerDisplay.live sv t) sv) Hr).
      destruct (TimerDisplay.frames p rest
                  (advanced (TimerDisplay.live sv t) sv))
        as [[sv2 sig2] samples].
      cbn [snd] in *. rewrite IH. cbn. f_equal. lia.
    - rewrite (frame_reaches p t sv Hr Hge).
      rewrite (frames_not_running p rest (clamped sv)) by done.
      cbn. f_equal; [lia|].
      clear IH Hrest. induction Ht as [|t' rest Ht' _ IH]; [done|].
      cbn. f_equal; [|done].
      unfold TimerDisplay.live in *. lia. }
  split; [done|]. rewrite Hform.
  apply StronglySorted_fmap_mono; [|done].
  intros a b Hab. unfold TimerDisplay.live. lia.
Qed.

Lemma frames_render_clamped_live_witness :
  let p := AppDisplay.props (AppDisplay.startTimer 1000 AppDisplay.initial) in
  let sv := TimerDisplay.syncAnchors p (TimerDisplay.mount p) in
  (TimerDisplay.frames p [2000; 900000; 1801000; 1801016] sv).2
  = [1000; 899000; 1800000; 1800000].
Proof.
  cbn zeta.
  refine (proj1 (frames_render_clamped_live
                   (AppDisplay.props
                      (AppDisplay.startTimer 1000 AppDisplay.initial))
                   [2000; 900000; 1801000; 1801016]
                   (TimerDisplay.syncAnchors
                      (AppDisplay.props
                         (AppDisplay.startTimer 1000 AppDisplay.initial))
                      (TimerDisplay.mount
                         (AppDisplay.props
                            (AppDisplay.startTimer 1000 AppDisplay.initial))))
                   _ _)).
  - vm_compute. congruence.
  - repeat (constructor; [|repeat constructor; lia]). constructor.
Defined.

(** * Further properties: the app and its display together *)

Lemma rerender_inSync (old new : AppDisplay.State)
  (d : option TimerDisplay.Shared) :
  inSync old d →
  (AppDisplay.isRunning new = true → is_Some (AppDisplay.startMonoMs new)) →
  inSync new (AppDisplay.rerender old new d).
Proof.
  intros [_ Hd] Hanchor. split; [done|].
  unfold AppDisplay.rerender.
  destruct (AppDisplay.isTimerActive new) eqn:Hact; [|done].
  assert (Hsync : ∀ sv1,
    TimerDisplay.durationSV sv1 = AppDisplay.durationMs new →
    let sv2 := TimerDisplay.syncAnchors (AppDisplay.props new) sv1 in
    TimerDisplay.durationSV sv2 = AppDisplay.durationMs new
    ∧ (TimerDisplay.runningSV sv2 ≠ 0 →
       AppDisplay.isRunning new = true
       ∧ AppDisplay.startMonoMs new = Some (TimerDisplay.startMonoSV sv2)
       ∧ TimerDisplay.baseElapsedSV sv2
         = default 0 (AppDisplay.accumulatedMs new))
    ∧ (AppDisplay.isRunning new = false →
       TimerDisplay.runningSV sv2 = 0
       ∧ TimerDisplay.baseElapsedSV sv2
         = default 0 (AppDisplay.accumulatedMs new)
       ∧ TimerDisplay.renderElapsedSV sv2
         = default 0 (AppDisplay.accumulatedMs new))).
  { intros sv1 Hdur. cbn zeta.
    unfold TimerDisplay.syncAnchors, AppDisplay.props.
    cbn [TimerDisplay.isRunning TimerDisplay.startMonoMs
         TimerDisplay.accumulatedMs].
    destruct (AppDisplay.isRunning new) eqn:Hrun.
    - destruct (Hanchor eq_refl) as [start Hstart]. rewrite Hstart. cbn.
      split; [done|]. split; [done|]. intros; discriminate.
    - destruct (AppDisplay.startMonoMs new); cbn;
        (split; [done|]); (split; [done|]); done. }
  destruct d as [sv|].
  - destruct Hd as (_ & Hdur & Hon & Hoff).
    set (sv1 := if bool_decide (AppDisplay.durationMs old
                                = AppDisplay.durationMs new)
                then sv
                else TimerDisplay.syncDuration (AppDisplay.props new) sv).
    assert (Hdur1 : TimerDisplay.durationSV sv1 = AppDisplay.durationMs new).
    { subst sv1. case_bool_decide as Hsame; [congruence|done]. }
    assert (Hkeep : TimerDisplay.runningSV sv1 = TimerDisplay.runningSV sv
                    ∧ TimerDisplay.startMonoSV sv1 = TimerDisplay.startMonoSV sv
                    ∧ TimerDisplay.baseElapsedSV sv1
                      = TimerDisplay.baseElapsedSV sv
                    ∧ TimerDisplay.renderElapsedSV sv1
                      = TimerDisplay.renderElapsedSV sv).
    { subst sv1. by case_bool_decide. }
    destruct Hkeep as (Hk1 & Hk2 & Hk3 & Hk4).
    split; [done|]. case_bool_decide as Hdeps.
    + destruct Hdeps as (Hr & Hs & Ha).
      rewrite Hk1, Hk2, Hk3, Hk4, <- Hr, <- Hs, <- Ha. done.
    + by apply Hsync.
  - split; [done|]. by apply Hsync.
Qed.

Lemma inSync_step (s : AppDisplay.Step) (sys : AppDisplay.System) :
  displayInSync sys → displayInSync (AppDisplay.step s sys).
Proof.
  unfold displayInSync. intros Hinv.
  destruct s as [o|now|]; cbn [AppDisplay.step].
  - destruct (AppDisplay.offered o (AppDisplay.app sys)) eqn:Hoff; [|done].
    cbn [AppDisplay.app AppDisplay.display].
    apply rerender_inSync; [done|].
    destruct Hinv as [Hanchor _].
    destruct o as [p|t|t|t|]; cbn [AppDisplay.call]; try done.
    + intros _. unfold AppDisplay.startMonoMs, AppDisplay.startTimer.
      cbn [AppDisplay.storage]. rewrite getNumber_setNumber_eq. by eexists.
    + intros _. unfold AppDisplay.startMonoMs, AppDisplay.continueTraining.
      cbn [AppDisplay.storage]. rewrite getNumber_setNumber_eq. by eexists.
  - destruct (AppDisplay.display sys) as [sv|] eqn:Hd; [|by rewrite Hd].
    destruct Hinv as (Hanchor & Hact & Hdur & Hon & Hoff).
    destruct (TimerDisplay.frame (AppDisplay.props (AppDisplay.app sys)) now sv)
      as [sv1 sigs] eqn:Hframe.
    cbn [AppDisplay.app AppDisplay.display].
    split; [done|]. split; [done|].
    unfold TimerDisplay.frame in Hframe.
    destruct (Z.eqb_spec (TimerDisplay.runningSV sv) 0) as [Hz|Hnz].
    { injection Hframe as <- _. done. }
    destruct (Hon Hnz) as (Hrun & Hstart & Hbase).
    destruct (Z.leb_spec (TimerDisplay.durationSV sv)
                (TimerDisplay.baseElapsedSV sv
                 + (now - TimerDisplay.startMonoSV sv)));
      injection Hframe as <- _; cbn.
    + split; [done|]. split; [done|]. congruence.
    + split; [done|]. split; [done|]. congruence.
  - destruct (AppDisplay.rnQueue sys) as [|[] rest]; [done|].
    cbn [AppDisplay.app AppDisplay.display].
    apply rerender_inSync; [done|]. discriminate.
Qed.

Lemma inSync_steps (disk : gmap string AppDisplay.Stored)
  (ss : list AppDisplay.Step) :
  displayInSync (AppDisplay.steps ss (AppDisplay.boot disk)).
Proof.
  assert (Hgen : ∀ sys, displayInSync sys →
                        displayInSync (AppDisplay.steps ss sys)).
  { induction ss as [|s ss IH]; intros sys Hsys; [done|].
    cbn. apply IH. by apply inSync_step. }
  apply Hgen. split; [discriminate|done].
Qed.

(** X8. Whatever the store held at startup and whatever presses, frames and
    scheduled calls follow, the app and its display stay in step: the display
    is mounted exactly while a session is active, its duration is the app's,
    while it runs its anchor and base are the app's [startMonoMs] and
    [accumulatedMs], and while the app is paused it is stopped and shows
    [accumulatedMs]. *)
Theorem display_in_sync (disk : gmap string AppDisplay.Stored)
  (ss : list AppDisplay.Step) :
  displayInSync (AppDisplay.steps ss (AppDisplay.boot disk)).
Proof. apply inSync_steps. Qed.

(** X9. In every reachable state of the two threads, a frame of a running
    display renders the app's live elapsed time,
    [accumulatedMs + (now - startMonoMs)], cut off at [durationMs]. *)
Theorem frame_renders_live_elapsed (disk : gmap string AppDisplay.Stored)
  (ss : list AppDisplay.Step) (now : Z) (sv : TimerDisplay.Shared) :
  let sys := AppDisplay.steps ss (AppDisplay.boot disk) in
  AppDisplay.display sys = Some sv →
  TimerDisplay.runningSV sv ≠ 0 →
  ∃ start sv',
    AppDisplay.startMonoMs (AppDisplay.app sys) = Some start
    ∧ AppDisplay.display (AppDisplay.step (AppDisplay.Frame now) sys)
      = Some sv'
    ∧ TimerDisplay.renderElapsedSV sv'
      = Z.min (AppDisplay.durationMs (AppDisplay.app sys))
          (default 0 (AppDisplay.accumulatedMs (AppDisplay.app sys))
           + (now - start)).
Proof.
  cbn zeta. intros Hd Hr.
  pose proof (inSync_steps disk ss) as Hinv.
  unfold displayInSync, inSync in Hinv. rewrite Hd in Hinv.
  destruct Hinv as (_ & _ & Hdur & Hon & _).
  destruct (Hon Hr) as (_ & Hstart & Hbase).
  exists (TimerDisplay.startMonoSV sv).
  cbn [AppDisplay.step]. rewrite Hd.
  destruct (Z.lt_ge_cases (TimerDisplay.live sv now)
              (TimerDisplay.durationSV sv)) as [Hlt|Hge].
  - rewrite (frame_advances _ now sv Hr Hlt).
    eexists. split; [done|]. split; [done|]. cbn.
    unfold TimerDisplay.live in *. lia.
  - rewrite (frame_reaches _ now sv Hr Hge).
    eexists. split; [done|]. split; [done|]. cbn.
    unfold TimerDisplay.live in *. lia.
Qed.

Lemma frame_renders_live_elapsed_witness :
  ∃ start sv',
    AppDisplay.startMonoMs
      (AppDisplay.app
         (AppDisplay.steps [AppDisplay.Press (AppDisplay.Start 1000)]
            (AppDisplay.boot ∅))) = Some start
    ∧ AppDisplay.display
        (AppDisplay.step (AppDisplay.Frame 61000)
           (AppDisplay.steps [AppDisplay.Press (AppDisplay.Start 1000)]
              (AppDisplay.boot ∅))) = Some sv'
    ∧ TimerDisplay.renderElapsedSV sv' = Z.min 1800000 (0 + (61000 - start)).
Proof.
  eapply (frame_renders_live_elapsed ∅
            [AppDisplay.Press (AppDisplay.Start 1000)] 61000).
  - reflexivity.
  - vm_compute. congruence.
Defined.

(** * Further properties of [src/App.tsx]: the scheduler *)

(** A property kept by every handler is kept by every run. *)
Lemma run_invariant (P : AppTick.State → Prop) :
  (∀ e st, P st → P (AppTick.handle e st).1) →
  ∀ es st, P st → P (AppTick.run es st).1.
Proof.
  intros Hstep es. induction es as [|e es IH]; intros st Hst; [done|].
  cbn [AppTick.run]. specialize (Hstep e st Hst).
  destruct (AppTick.handle e st) as [st1 out1]. specialize (IH st1 Hstep).
  by destruct (AppTick.run es st1).
Qed.

(** X10. No zombie tick: whatever is pressed and whenever ticks and effect
    runs happen, a timeout is pending only while the timer is active, and it
    is due in 1 to 1000 ms. *)
Theorem timeout_only_while_active (es : list AppTick.Event) (delay : Z) :
  AppTick.timeoutRef (AppTick.run es AppTick.initial).1 = Some delay →
  AppTick.isTimerActive (AppTick.run es AppTick.initial).1 = true
  ∧ 1 <= delay <= 1000.
Proof.
  revert delay.
  apply (run_invariant
           (fun st => ∀ delay, AppTick.timeoutRef st = Some delay →
                               AppTick.isTimerActive st = true
                               ∧ 1 <= delay <= 1000)); [|done].
  assert (Htick : ∀ now st,
    (∀ delay, AppTick.timeoutRef st = Some delay →
              AppTick.isTimerActive st = true ∧ 1 <= delay <= 1000) →
    ∀ delay, AppTick.timeoutRef (AppTick.tick now st).1 = Some delay →
             AppTick.isTimerActive (AppTick.tick now st).1 = true
             ∧ 1 <= delay <= 1000).
  { intros now st Hst delay.
    destruct (tick_cases now st)
      as [[-> _]|(start & Hs & Hne & Ha & [[_ ->]|[_ ->]])]; cbn.
    - apply Hst.
    - discriminate.
    - intros [= <-]. split; [done|]. apply tickDelay_bounds. }
  intros e st Hst.
  destruct e as [p|now|id|now|now| |now|now| ]; cbn [AppTick.handle].
  - exact Hst.
  - unfold AppTick.startTimer.
    destruct (Js.parseInt (AppTick.customDuration st)) as [d|]; [|exact Hst].
    destruct ((d <? 5) || (120 <? d)); [exact Hst|]. cbn. discriminate.
  - exact Hst.
  - cbn. discriminate.
  - cbn. intros delay Hd. split; [done|]. by apply Hst.
  - cbn. discriminate.
  - by apply Htick.
  - unfold AppTick.lifecycle.
    destruct (AppTick.isTimerActive st && Js.truthy (AppTick.startTime st)
              && (0 <? AppTick.timeRemaining st)).
    + pose proof (Htick now
                    (AppTick.setLastTick now (AppTick.dropTimeout st))
                    ltac:(cbn; discriminate)) as Ht.
      by destruct (AppTick.tick now _).
    + cbn. discriminate.
  - exact Hst.
Qed.

Lemma timeout_only_while_active_witness :
  AppTick.isTimerActive
    (AppTick.run [AppTick.PressStart 1000; AppTick.Tick 1400]
       AppTick.initial).1 = true
  ∧ 1 <= 600 <= 1000.
Proof.
  exact (timeout_only_while_active
           [AppTick.PressStart 1000; AppTick.Tick 1400] 600 eq_refl).
Defined.

(** X11. Drift compensation: the timeout a tick schedules is due exactly
    when the elapsed time reaches the next whole second, and a timeout that
    fires less than a second late still finds that second. *)
Theorem tick_aims_at_next_second (now start late : Z) (st : AppTick.State) :
  AppTick.startTime st = Some start → start ≠ 0 →
  AppTick.isTimerActive st = true →
  AppTick.totalElapsedSeconds now start st < AppTick.trainingDuration st →
  0 <= late < 1000 →
  ∃ delay,
    AppTick.timeoutRef (AppTick.tick now st).1 = Some delay
    ∧ AppTick.totalElapsedMs (now + delay) start (AppTick.tick now st).1
      = (AppTick.totalElapsedSeconds now start st + 1) * 1000
    ∧ AppTick.totalElapsedSeconds (now + delay + late) start
        (AppTick.tick now st).1
      = AppTick.totalElapsedSeconds now start st + 1.
Proof.
  intros Hs Hne Ha Hrun Hlate.
  destruct (tick_cases now st)
    as [[_ [H|[H|H]]]|(start' & Hs' & _ & _ & [[Hdone _]|[_ ->]])];
    try congruence; rewrite Hs in Hs'; injection Hs' as <-; [lia|].
  exists (AppTick.tickDelay now start st).
  pose proof (tickDelay_bounds now start st) as [Hd _].
  cbn [fst AppTick.schedule AppTick.timeoutRef].
  split; [done|].
  assert (Hms : ∀ t, AppTick.totalElapsedMs t start
                       (AppTick.schedule now (AppTick.tickDelay now start st)
                          (AppTick.setTimeRemaining
                             (AppTick.trainingDuration st
                              - AppTick.totalElapsedSeconds now start st) st))
                     = t - start - AppTick.pausedTime st) by done.
  assert (Hsec : ∀ t, AppTick.totalElapsedSeconds t start
                        (AppTick.schedule now (AppTick.tickDelay now start st)
                           (AppTick.setTimeRemaining
                              (AppTick.trainingDuration st
                               - AppTick.totalElapsedSeconds now start st) st))
                      = (t - start - AppTick.pausedTime st) / 1000) by done.
  rewrite Hms, Hsec, Hd. unfold AppTick.targetTime.
  set (secs := AppTick.totalElapsedSeconds now start st).
  split; [lia|].
  symmetry. apply Z.div_unique with late; lia.
Qed.

Lemma tick_aims_at_next_second_witness :
  let st := (AppTick.run [AppTick.PressStart 1000] AppTick.initial).1 in
  ∃ delay,
    AppTick.timeoutRef (AppTick.tick 62350 st).1 = Some delay
    ∧ AppTick.totalElapsedMs (62350 + delay) 1000 (AppTick.tick 62350 st).1
      = 62000
    ∧ AppTick.totalElapsedSeconds (62350 + delay + 40) 1000
        (AppTick.tick 62350 st).1 = 62.
Proof.
  exact (tick_aims_at_next_second 62350 1000 40
           (AppTick.run [AppTick.PressStart 1000] AppTick.initial).1
           eq_refl ltac:(lia) eq_refl ltac:(vm_compute; reflexivity)
           ltac:(lia)).
Defined.

(** * Further properties of [src/App.tsx]: elapsed time is running time *)

Lemma tickInStep_fields (st st' : AppTick.State) (s : AppDisplay.Session) :
  AppTick.isTimerActive st' = AppTick.isTimerActive st →
  AppTick.isPausePrompt st' = AppTick.isPausePrompt st →
  AppTick.startTime st' = AppTick.startTime st →
  AppTick.pausedTime st' = AppTick.pausedTime st →
  AppTick.pauseStartTime st' = AppTick.pauseStartTime st →
  tickInStep st s → tickInStep st' s.
Proof.
  unfold tickInStep. intros -> -> -> -> ->. done.
Qed.

Lemma tickInStep_off (st : AppTick.State) (s : AppDisplay.Session) :
  AppTick.isTimerActive st = false → AppTick.isPausePrompt st = false →
  tickInStep st s.
Proof. intros Ha Hp. split; intros; congruence. Qed.

Lemma tickInStep_tick (now : Z) (st : AppTick.State) (s : AppDisplay.Session) :
  tickInStep st s → tickInStep (AppTick.tick now st).1 s.
Proof.
  intros Hinv.
  destruct (tick_cases now st)
    as [[-> _]|(start & Hs & Hne & Ha & [[_ ->]|[_ ->]])]; [done| |].
  - destruct Hinv as [Hon _]. destruct (Hon Ha) as [Hp _].
    by apply tickInStep_off.
  - by apply (tickInStep_fields st).
Qed.

Lemma tickInStep_step (e : AppTick.Event) (st : AppTick.State)
  (s : AppDisplay.Session) :
  tickInStep st s → AppTick.offered e st = true →
  tickInStep (AppTick.handle e st).1 (tickAccount e s).
Proof.
  intros Hinv Hoff.
  destruct e as [p|now|id|now|now| |now|now| ];
    cbn [AppTick.handle tickAccount].
  - cbn in Hoff. apply negb_true_iff in Hoff.
    unfold AppTick.timerScreen in Hoff.
    apply orb_false_iff in Hoff as [Ha Hp]. by apply tickInStep_off.
  - cbn in Hoff. apply negb_true_iff in Hoff.
    unfold AppTick.timerScreen in Hoff.
    apply orb_false_iff in Hoff as [Ha Hp].
    unfold AppTick.startTimer.
    destruct (Js.parseInt (AppTick.customDuration st)) as [d|];
      [|by apply tickInStep_off].
    destruct ((d <? 5) || (120 <? d)); [by apply tickInStep_off|].
    split; cbn; [|intros; congruence].
    intros _. split; [done|]. exists now, now. cbn. split; [done|].
    split; [done|]. lia.
  - by apply (tickInStep_fields st).
  - cbn in Hoff. apply andb_true_iff in Hoff as [Hscreen Hp].
    apply negb_true_iff in Hp. unfold AppTick.timerScreen in Hscreen.
    rewrite Hp, orb_false_r in Hscreen.
    destruct Hinv as [Hon _].
    destruct (Hon Hscreen) as (_ & start & seg & Hs & Hst & Hanchor).
    rewrite Hst. split; cbn; [intros; discriminate|].
    intros _. split; [done|]. exists start, now.
    rewrite segmentsTotal_snoc.
    split; [done|]. split; [done|]. split; [done|]. lia.
  - cbn in Hoff. apply andb_true_iff in Hoff as [_ Hp].
    destruct Hinv as [_ Hpause].
    destruct (Hpause Hp) as (_ & start & p & Hs & Hps & Hst & Htotal).
    rewrite Hst. split; cbn; [|intros; discriminate].
    intros _. split; [done|]. exists start, now. rewrite Hps.
    split; [done|]. split; [done|].
    unfold AppDisplay.segmentsTotal in *. lia.
  - by apply tickInStep_off.
  - by apply tickInStep_tick.
  - unfold AppTick.lifecycle.
    destruct (AppTick.isTimerActive st && Js.truthy (AppTick.startTime st)
              && (0 <? AppTick.timeRemaining st)).
    + pose proof (tickInStep_tick now
                    (AppTick.setLastTick now (AppTick.dropTimeout st)) s
                    ltac:(by apply (tickInStep_fields st))) as Ht.
      by destruct (AppTick.tick now _).
    + by apply (tickInStep_fields st).
  - by apply (tickInStep_fields st).
Qed.

Lemma tickInStep_run (es : list AppTick.Event) :
  ∀ (st : AppTick.State) (s : AppDisplay.Session),
    tickInStep st s → AppTick.gated es st = true →
    tickInStep (AppTick.run es st).1 (tickAccounts es s).
Proof.
  induction es as [|e es IH]; intros st s Hinv Hg; [done|].
  cbn in Hg. apply andb_true_iff in Hg as [Hoff Hg].
  cbn [AppTick.run tickAccounts].
  pose proof (tickInStep_step e st s Hinv Hoff) as Hstep.
  destruct (AppTick.handle e st) as [st1 out1]. cbn [fst] in *.
  specialize (IH st1 (tickAccount e s) Hstep Hg).
  by destruct (AppTick.run es st1).
Qed.

(** X12. In [src/App.tsx], after any events the screen lets through, the
    elapsed time a tick computes while the timer is active is the running
    time: the completed running segments plus the open one. While the pause
    prompt is shown, the elapsed time at the recorded pause instant is the
    sum of the completed running segments. Paused time is never counted and
    running time never dropped. *)
Theorem elapsed_is_running_time (es : list AppTick.Event) :
  AppTick.gated es AppTick.initial = true →
  let st := (AppTick.run es AppTick.initial).1 in
  let s := tickAccounts es AppDisplay.idle in
  (AppTick.isTimerActive st = true →
   ∃ start seg,
     AppTick.startTime st = Some start
     ∧ AppDisplay.status s = AppDisplay.Running seg
     ∧ ∀ now, AppTick.totalElapsedMs now start st
              = AppDisplay.segmentsTotal (AppDisplay.completed s)
                + (now - seg))
  ∧ (AppTick.isPausePrompt st = true →
     ∃ start p,
       AppTick.startTime st = Some start
       ∧ AppTick.pauseStartTime st = Some p
       ∧ AppDisplay.status s = AppDisplay.Paused
       ∧ AppTick.totalElapsedMs p start st
         = AppDisplay.segmentsTotal (AppDisplay.completed s)).
Proof.
  intros Hg. cbn zeta.
  pose proof (tickInStep_run es AppTick.initial AppDisplay.idle
                ltac:(by apply tickInStep_off) Hg) as [Hon Hpause].
  split.
  - intros Ha. destruct (Hon Ha) as (_ & start & seg & Hs & Hst & Hanchor).
    exists start, seg. split; [done|]. split; [done|].
    intros now. unfold AppTick.totalElapsedMs. lia.
  - intros Hp. destruct (Hpause Hp) as (_ & start & p & Hs & Hps & Hst & Ht).
    exists start, p. split; [done|]. split; [done|]. split; [done|].
    unfold AppTick.totalElapsedMs. lia.
Qed.

Lemma elapsed_is_running_time_witness :
  let es := [AppTick.PressStart 1000; AppTick.Tick 2000;
             AppTick.PressStop 4000; AppTick.PressContinue 10000;
             AppTick.Tick 11000] in
  ∃ start seg,
    AppTick.startTime (AppTick.run es AppTick.initial).1 = Some start
    ∧ AppDisplay.status (tickAccounts es AppDisplay.idle)
      = AppDisplay.Running seg
    ∧ ∀ now, AppTick.totalElapsedMs now start
               (AppTick.run es AppTick.initial).1
             = AppDisplay.segmentsTotal
                 (AppDisplay.completed (tickAccounts es AppDisplay.idle))
               + (now - seg).
Proof.
  exact (proj1 (elapsed_is_running_time
                  [AppTick.PressStart 1000; AppTick.Tick 2000;
                   AppTick.PressStop 4000; AppTick.PressContinue 10000;
                   AppTick.Tick 11000] eq_refl) eq_refl).
Defined.

(** * Further properties of [src/App.tsx]: reachable durations and messages *)

Ltac in_three :=
  first [ apply list_elem_of_here
        | apply list_elem_of_further, list_elem_of_here
        | do 2 apply list_elem_of_further; apply list_elem_of_here ].

Lemma presetState_step (e : AppTick.Event) (st : AppTick.State) :
  presetState st → presetState (AppTick.handle e st).1.
Proof.
  intros (Hc & Hd & Hr).
  assert (Hd0 : 0 <= AppTick.trainingDuration st).
  { repeat (apply elem_of_cons in Hd as [->|Hd]; [lia|]).
    by apply elem_of_nil in Hd. }
  assert (Htick : ∀ now st',
    AppTick.customDuration st' = AppTick.customDuration st →
    AppTick.trainingDuration st' = AppTick.trainingDuration st →
    0 <= AppTick.timeRemaining st' →
    presetState (AppTick.tick now st').1).
  { intros now st' Hc' Hd' Hr'.
    destruct (tick_cases now st')
      as [[-> _]|(start & Hs & Hne & Ha & [[_ ->]|[Hrun ->]])]; cbn.
    - unfold presetState. by rewrite Hc', Hd'.
    - unfold presetState. cbn. rewrite Hc', Hd'. done.
    - unfold presetState. cbn. rewrite Hc', Hd'.
      split; [done|]. split; [done|]. lia. }
  destruct e as [p|now|id|now|now| |now|now| ]; cbn [AppTick.handle].
  - split; [|split]; cbn; [| |done]; destruct p; cbn.
    + apply list_elem_of_here.
    + apply list_elem_of_further, list_elem_of_here.
    + do 2 apply list_elem_of_further. apply list_elem_of_here.
    + apply list_elem_of_here.
    + apply list_elem_of_further, list_elem_of_here.
    + do 2 apply list_elem_of_further. apply list_elem_of_here.
  - assert (Hlabel : ∃ p, AppTick.customDuration st = AppTick.presetLabel p).
    { apply elem_of_cons in Hc as [Hc|Hc]; [by exists AppTick.P15|].
      apply elem_of_cons in Hc as [Hc|Hc]; [by exists AppTick.P30|].
      apply elem_of_cons in Hc as [Hc|Hc]; [by exists AppTick.P60|].
      by apply elem_of_nil in Hc. }
    destruct Hlabel as [p Hp]. unfold AppTick.startTimer.
    rewrite Hp, parseInt_preset.
    destruct p; unfold presetState; cbn;
      (split; [in_three|]); (split; [in_three|lia]).
  - done.
  - done.
  - done.
  - split; [done|]. split; [done|]. cbn. lia.
  - by apply Htick.
  - unfold AppTick.lifecycle.
    destruct (AppTick.isTimerActive st && Js.truthy (AppTick.startTime st)
              && (0 <? AppTick.timeRemaining st)).
    + pose proof (Htick now
                    (AppTick.setLastTick now (AppTick.dropTimeout st))
                    eq_refl eq_refl Hr) as Ht.
      by destruct (AppTick.tick now _).
    + done.
  - done.
Qed.

(** X13. In every state [src/App.tsx] can reach, whatever is pressed, the
    training duration is 15, 30 or 60 minutes, hence a whole number of
    3-minute intervals, and the remaining time is not negative; when the
    presses are those the screen offers and the clock never goes back, the
    remaining time on the timer screen is also at most the training
    duration. *)
Theorem reachable_durations (es : list AppTick.Event) (clock : Z) :
  let st := (AppTick.run es AppTick.initial).1 in
  AppTick.trainingDuration st ∈ [15 * 60; 30 * 60; 60 * 60]
  ∧ AppTick.trainingDuration st `mod` 180 = 0
  ∧ 0 <= AppTick.timeRemaining st
  ∧ (AppTick.gated es AppTick.initial = true →
     AppTick.monotone clock es = true →
     AppTick.timerScreen st = true →
     AppTick.timeRemaining st <= AppTick.trainingDuration st).
Proof.
  cbn zeta.
  pose proof (run_invariant presetState presetState_step es AppTick.initial)
    as (_ & Hd & Hr).
  { split; [|split]; cbn; [| |lia].
    - apply list_elem_of_further, list_elem_of_here.
    - apply list_elem_of_further, list_elem_of_here. }
  split; [done|]. split; [|split; [done|]].
  - repeat (apply elem_of_cons in Hd as [->|Hd]; [done|]).
    by apply elem_of_nil in Hd.
  - intros Hg Hm Hscreen. by apply (timerScreen_elapsed_nonneg es clock).
Qed.

(** X14. Messages at the boundaries a tick notifies, in a session of [T]
    minutes: the first boundary gets the start encouragement and the second
    the first-interval message; "Almost there" goes out exactly at the
    boundary three minutes before the end, and only from the third boundary
    on; the session-halfway message goes out exactly at a boundary, from the
    third on, whose minute is [floor (T / 2)]. *)
Theorem boundary_messages (T n : Z) :
  5 <= T <= 120 → 0 < n < T * 60 → n `mod` 180 = 0 →
  (n = 180 → AppTick.intervalMessage (T * 60) n = GreatStart)
  ∧ (n = 360 → AppTick.intervalMessage (T * 60) n = HalfwayFirstInterval)
  ∧ (AppTick.intervalMessage (T * 60) n = AlmostThere
     ↔ 540 <= n ∧ n = (T - 3) * 60)
  ∧ (AppTick.intervalMessage (T * 60) n = HalfwaySession T
     ↔ 540 <= n ∧ n / 60 = T / 2).
Proof.
  intros HT Hn Hmod.
  unfold AppTick.intervalMessage, Js.floor_div.
  rewrite Z.div_mul by lia.
  pose proof (Z.div_mod n 180 ltac:(lia)) as Hk. rewrite Hmod in Hk.
  assert (Hmin : n / 60 = 3 * (n / 180)).
  { rewrite Hk at 1. replace (180 * (n / 180) + 0)
      with (3 * (n / 180) * 60) by lia. by rewrite Z.div_mul by lia. }
  assert (Hn60 : n = 60 * (n / 60)) by lia.
  pose proof (Z.div_mod T 2 ltac:(lia)).
  pose proof (Z.mod_pos_bound T 2 ltac:(lia)).
  assert (Hcases : n / 180 = 1 ∨ n / 180 = 2 ∨ 3 <= n / 180) by lia.
  destruct (Z.eqb_spec (n / 60) 3) as [H3|H3].
  { split; [done|]. split; [lia|]. split; (split; [done|lia]). }
  destruct (Z.eqb_spec (n / 60) 6) as [H6|H6].
  { split; [lia|]. split; [done|]. split; (split; [done|lia]). }
  destruct (Z.eqb_spec (n / 60) (T / 2)) as [Hh|Hh].
  { split; [lia|]. split; [lia|]. split; [split; [done|lia]|].
    split; [lia|done]. }
  destruct (Z.eqb_spec (n / 60) (T - 3)) as [Ha|Ha].
  { split; [lia|]. split; [lia|]. split; [split; [lia|done]|].
    split; [done|lia]. }
  split; [lia|]. split; [lia|]. split; (split; [done|lia]).
Qed.

Lemma boundary_messages_witness :
  AppTick.intervalMessage (30 * 60) 1620 = AlmostThere
  ↔ 540 <= 1620 ∧ 1620 = (30 - 3) * 60.
Proof.
  exact (proj1 (proj2 (proj2 (boundary_messages 30 1620 ltac:(lia) ltac:(lia)
                                eq_refl)))).
Defined.

(** * Properties of the first version of the app *)

Lemma crossedBoundaries_succ (k : Z) :
  0 <= k →
  crossedBoundaries 0 (k + 1)
  = crossedBoundaries 0 k
    ++ (if (k + 1) `mod` 180 =? 0 then [k + 1] else []).
Proof.
  intros Hk. unfold crossedBoundaries.
  change (0 / 180) with 0. rewrite !Z.sub_0_r.
  pose proof (Z.div_mod k 180 ltac:(lia)).
  pose proof (Z.mod_pos_bound k 180 ltac:(lia)).
  pose proof (Z.div_pos k 180 Hk ltac:(lia)).
  destruct (Z.eqb_spec ((k + 1) `mod` 180) 0) as [Hz|Hnz].
  - assert (Hq : (k + 1) / 180 = k / 180 + 1).
    { symmetry. apply Z.div_unique with 0; [lia|].
      pose proof (Z.div_mod (k + 1) 180 ltac:(lia)).
      assert (k `mod` 180 = 179); [|lia].
      assert ((k + 1) `mod` 180 = (k `mod` 180 + 1) `mod` 180) as Hm.
      { rewrite <- Zplus_mod_idemp_l. done. }
      destruct (decide (k `mod` 180 = 179)) as [|Hne]; [done|].
      rewrite Z.mod_small in Hm by lia. lia. }
    rewrite Hq, Z2Nat.inj_add by lia.
    change (Z.to_nat 1) with 1%nat. rewrite Nat.add_1_r, seq_S, fmap_app.
    cbn. f_equal. f_equal.
    pose proof (Z.div_mod (k + 1) 180 ltac:(lia)). lia.
  - assert (Hq : (k + 1) / 180 = k / 180).
    { symmetry. apply Z.div_unique with (k `mod` 180 + 1); [|lia].
      assert (k `mod` 180 ≠ 179); [|lia].
      intros H179. apply Hnz.
      rewrite <- Zplus_mod_idemp_l, H179. done. }
    by rewrite Hq, app_nil_r.
Qed.

(** The countdown of a running session, [k] seconds in and before its
    end. *)
Lemma seconds_running (st : AppInterval.State) (k : nat) :
  AppInterval.isTimerActive st = true →
  AppInterval.timeRemaining st = AppInterval.trainingDuration st →
  Z.of_nat k < AppInterval.trainingDuration st →
  AppInterval.isTimerActive (AppInterval.seconds k st).1 = true
  ∧ AppInterval.trainingDuration (AppInterval.seconds k st).1
    = AppInterval.trainingDuration st
  ∧ AppInterval.timeRemaining (AppInterval.seconds k st).1
    = AppInterval.trainingDuration st - Z.of_nat k
  ∧ notified (AppInterval.seconds k st).2
    = crossedBoundaries 0 (Z.of_nat k)
  ∧ completions (AppInterval.seconds k st).2 = [].
Proof.
  intros Ha Hfull. induction k as [|k IH]; intros Hk.
  - cbn. rewrite Hfull. split; [done|]. split; [done|]. split; [lia|]. done.
  - destruct IH as (Ha' & Hd' & Hr' & Hn' & Hc'); [lia|].
    cbn [AppInterval.seconds].
    destruct (AppInterval.seconds k st) as [st1 out1]. cbn [fst snd] in *.
    unfold AppInterval.second, AppInterval.armed.
    rewrite Ha', Hr'.
    destruct (Z.ltb_spec 0 (AppInterval.trainingDuration st - Z.of_nat k));
      [|lia].
    cbn [andb AppInterval.onInterval].
    unfold AppInterval.countdownEffect, AppInterval.armed.
    cbn [AppInterval.isTimerActive AppInterval.timeRemaining].
    rewrite Ha', Hr', Hd'.
    replace (AppInterval.trainingDuration st - Z.of_nat k - 1)
      with (AppInterval.trainingDuration st - Z.of_nat (S k)) by lia.
    destruct (Z.ltb_spec 0 (AppInterval.trainingDuration st - Z.of_nat (S k)));
      [|lia].
    cbn [andb fst snd AppInterval.isTimerActive AppInterval.trainingDuration
         AppInterval.timeRemaining].
    split; [done|]. split; [done|]. split; [done|].
    rewrite app_nil_r, notified_app, completions_app, Hn', Hc'.
    replace (AppInterval.trainingDuration st
             - (AppInterval.trainingDuration st - Z.of_nat (S k)))
      with (Z.of_nat k + 1) by lia.
    replace (Z.of_nat (S k)) with (Z.of_nat k + 1) by lia.
    rewrite crossedBoundaries_succ by lia.
    unfold Js.rem. rewrite Z.rem_mod_nonneg by lia.
    destruct (Z.eqb_spec ((Z.of_nat k + 1) `mod` 180) 0); done.
Qed.

(** X15. In the first version, a session that is left running notifies every
    180-second boundary before its end exactly once and in ascending order,
    counts [timeRemaining] down by one per second, and in its last second
    sends the completion notification once, stops and shows the whole
    duration again. *)
Theorem countdown_notifies_each_boundary_once (st : AppInterval.State) :
  AppInterval.isTimerActive st = true →
  AppInterval.timeRemaining st = AppInterval.trainingDuration st →
  0 < AppInterval.trainingDuration st →
  (∀ k : nat,
     Z.of_nat k < AppInterval.trainingDuration st →
     AppInterval.timeRemaining (AppInterval.seconds k st).1
     = AppInterval.trainingDuration st - Z.of_nat k
     ∧ notified (AppInterval.seconds k st).2
       = crossedBoundaries 0 (Z.of_nat k)
     ∧ completions (AppInterval.seconds k st).2 = [])
  ∧ (let done_ :=
       AppInterval.seconds (Z.to_nat (AppInterval.trainingDuration st)) st in
     notified done_.2
     = crossedBoundaries 0 (AppInterval.trainingDuration st - 1)
     ∧ completions done_.2 = [AppInterval.trainingDuration st / 60]
     ∧ AppInterval.isTimerActive done_.1 = false
     ∧ AppInterval.timeRemaining done_.1 = AppInterval.trainingDuration st).
Proof.
  intros Ha Hfull Hpos. split.
  - intros k Hk.
    destruct (seconds_running st k Ha Hfull Hk) as (_ & _ & Hr & Hn & Hc).
    done.
  - cbn zeta.
    set (D := AppInterval.trainingDuration st) in *.
    assert (Hk : Z.to_nat D = S (Z.to_nat (D - 1))) by lia.
    rewrite Hk. cbn [AppInterval.seconds].
    destruct (seconds_running st (Z.to_nat (D - 1)) Ha Hfull ltac:(lia))
      as (Ha' & Hd' & Hr' & Hn' & Hc').
    destruct (AppInterval.seconds (Z.to_nat (D - 1)) st) as [st1 out1].
    cbn [fst snd] in *.
    rewrite Z2Nat.id in Hr', Hn' by lia.
    unfold AppInterval.second, AppInterval.armed. rewrite Ha', Hr'.
    fold D. replace (D - (D - 1)) with 1 by lia.
    cbn [Z.ltb Z.compare andb AppInterval.onInterval].
    unfold AppInterval.countdownEffect, AppInterval.armed.
    cbn [AppInterval.isTimerActive AppInterval.timeRemaining].
    rewrite Ha', Hr'. fold D. replace (D - (D - 1) - 1) with 0 by lia.
    cbn [Z.ltb Z.eqb Z.compare andb AppInterval.handleTimerComplete
         fst snd AppInterval.isTimerActive AppInterval.timeRemaining
         AppInterval.trainingDuration].
    rewrite app_nil_l, notified_app, completions_app, Hn', Hc', Hd'.
    cbn. rewrite app_nil_r. done.
Qed.

Lemma countdown_notifies_each_boundary_once_witness :
  let st := (AppInterval.run [AppInterval.PressPreset AppTick.P15;
                              AppInterval.PressStart]
               AppInterval.initial).1 in
  notified (AppInterval.seconds 900 st).2 = [180; 360; 540; 720]
  ∧ completions (AppInterval.seconds 900 st).2 = [15].
Proof.
  destruct (countdown_notifies_each_boundary_once
              (AppInterval.run [AppInterval.PressPreset AppTick.P15;
                                AppInterval.PressStart]
                 AppInterval.initial).1 eq_refl eq_refl eq_refl)
    as [_ (Hn & Hc & _)].
  split; [exact Hn|exact Hc].
Defined.

(** ** [parseInt] reads back what the decimal rendering printed *)

Lemma digit_char (d : N) :
  (d < 10)%N →
  Js.digitValue (pretty_N_char d) = Some (Z.of_N d)
  ∧ Js.isWhiteSpace (pretty_N_char d) = false
  ∧ pretty_N_char d ≠ "-"%char ∧ pretty_N_char d ≠ "+"%char.
Proof.
  intros Hd.
  assert (d = 0 ∨ d = 1 ∨ d = 2 ∨ d = 3 ∨ d = 4 ∨ d = 5 ∨ d = 6 ∨ d = 7
          ∨ d = 8 ∨ d = 9)%N as Hcases by lia.
  repeat (destruct Hcases as [->|Hcases]; [by vm_compute|]).
  subst. by vm_compute.
Qed.

Lemma digits_pretty_N_go (x : N) :
  (0 < x)%N →
  ∃ m, ∀ acc s,
    Js.digits 10 acc (pretty_N_go x s)
    = Js.digits 10 (Some (default 0 acc * m + Z.of_N x)) s.
Proof.
  induction (N.lt_wf_0 x) as [x _ IH]; intros Hpos.
  assert (x < 10 ∨ 10 ≤ x)%N as [Hlt|Hge] by lia.
  - exists 10. intros acc s. rewrite pretty_N_go_step by done.
    rewrite N.div_small, N.mod_small, pretty_N_go_0 by done.
    cbn [Js.digits]. destruct (digit_char x Hlt) as [-> _].
    destruct (Z.ltb_spec (Z.of_N x) 10); [done|lia].
  - destruct (IH (x `div` 10)%N) as [m Hm].
    { by apply N.div_lt. }
    { apply N.div_str_pos. lia. }
    exists (m * 10). intros acc s. rewrite pretty_N_go_step by done.
    rewrite Hm. cbn [Js.digits].
    destruct (digit_char (x `mod` 10)%N) as [-> _].
    { by apply N.mod_lt. }
    destruct (Z.ltb_spec (Z.of_N (x `mod` 10)) 10) as [_|Hbad].
    2: { pose proof (N.mod_lt x 10 ltac:(done)). lia. }
    cbn [default]. f_equal. f_equal.
    rewrite (N.div_mod x 10) at 3 by done.
    unfold id. rewrite N2Z.inj_add, N2Z.inj_mul. lia.
Qed.

Lemma parseInt_pretty_pos (n : Z) :
  0 < n →
  Js.parseInt (pretty n) = Some n
  ∧ Js.parseInt ("-" +:+ pretty n) = Some (- n).
Proof.
  intros Hn. rewrite pretty_Z_pos by done.
  destruct (digits_pretty_N_go (Z.to_N n) ltac:(lia)) as [m Hm].
  specialize (Hm None ""). cbn [default Js.digits] in Hm.
  rewrite Z2N.id, Z.mul_0_l, Z.add_0_l in Hm by lia.
  destruct (pretty_N_go_leading (Z.to_N n) "" ltac:(lia))
    as (d & r & Hd & Hlead).
  rewrite Hlead in *.
  assert (Hgo : ∀ c : ascii,
    Js.isWhiteSpace c = false → c ≠ "-"%char → c ≠ "+"%char →
    c ≠ "0"%char →
    Js.digits 10 None (String c r) = Some n →
    Js.parseInt (String c r) = Some n
    ∧ Js.parseInt ("-" +:+ String c r) = Some (- n)).
  { intros c Hw Hm1 Hp1 H0 Hdig.
    unfold Js.parseInt. rewrite append_cons, append_nil.
    cbn [Js.trimStart]. rewrite Hw.
    change (Js.isWhiteSpace "-") with false. cbn match.
    destruct c as [[] [] [] [] [] [] [] []]; try done;
      cbn -[Js.digits]; rewrite Hdig; cbn; split; f_equal; lia. }
  destruct (digit_char d ltac:(lia)) as (_ & Hw & Hm1 & Hp1).
  apply Hgo; try done.
  change "0"%char with (pretty_N_char 0). intros Hc.
  apply pretty_N_char_inj in Hc; lia.
Qed.

(** [parseInt] of the decimal rendering of any integer is that integer. *)
Lemma parseInt_pretty (n : Z) : Js.parseInt (pretty n) = Some n.
Proof.
  destruct n as [|p|p].
  - reflexivity.
  - by apply parseInt_pretty_pos.
  - change (pretty (Z.neg p)) with ("-" +:+ pretty (Z.pos p)).
    by apply (parseInt_pretty_pos (Z.pos p)).
Qed.

Lemma pretty_nonempty (n : Z) : String.eqb (pretty n) "" = false.
Proof.
  destruct n as [|p|p]; [done| |].
  - destruct (pretty_leading (Z.pos p) ltac:(lia)) as (c & r & -> & _). done.
  - change (pretty (Z.neg p)) with ("-" +:+ pretty (Z.pos p)).
    by rewrite append_cons.
Qed.

Lemma interval_run_invariant (P : AppInterval.State → Prop) :
  (∀ e st, P st → P (AppInterval.handle e st).1) →
  ∀ es st, P st → P (AppInterval.run es st).1.
Proof.
  intros Hstep es. induction es as [|e es IH]; intros st Hst; [done|].
  cbn [AppInterval.run]. specialize (Hstep e st Hst).
  destruct (AppInterval.handle e st) as [st1 out1]. specialize (IH st1 Hstep).
  by destruct (AppInterval.run es st1).
Qed.

Lemma second_keeps_duration (st : AppInterval.State) :
  AppInterval.trainingDuration (AppInterval.second st).1
  = AppInterval.trainingDuration st
  ∧ AppInterval.customDuration (AppInterval.second st).1
    = AppInterval.customDuration st.
Proof.
  unfold AppInterval.second, AppInterval.countdownEffect.
  destruct (AppInterval.armed st); [|done]. cbn.
  destruct (AppInterval.armed _); [done|].
  by destruct (AppInterval.timeRemaining st - 1 =? 0).
Qed.

(** X16. In the first version, whatever is typed into the duration cell and
    whatever is pressed, the training duration stays within 5 to 120 minutes,
    and whenever the text in the cell is a valid duration, the training
    duration is that of the text: a start never changes the duration the
    header shows. *)
Theorem typed_duration_within_range (es : list AppInterval.Event) :
  let st := (AppInterval.run es AppInterval.initial).1 in
  5 * 60 <= AppInterval.trainingDuration st <= 120 * 60
  ∧ ∀ d, Js.parseInt (AppInterval.customDuration st) = Some d →
         5 <= d <= 120 → AppInterval.trainingDuration st = d * 60.
Proof.
  cbn zeta.
  apply (interval_run_invariant
           (fun st =>
              5 * 60 <= AppInterval.trainingDuration st <= 120 * 60
              ∧ ∀ d, Js.parseInt (AppInterval.customDuration st) = Some d →
                     5 <= d <= 120 →
                     AppInterval.trainingDuration st = d * 60)).
  2: { split; [cbn; lia|]. intros d [= <-] _. done. }
  intros e st [Hrange Htext].
  destruct e as [text|p| |id| |]; cbn [AppInterval.handle fst].
  - unfold AppInterval.validateAndSetDuration.
    destruct (String.eqb_spec text "") as [->|Hne].
    { cbn. split; [done|]. intros d [=]. }
    destruct (Js.parseInt text) as [n|] eqn:Hparse.
    + destruct (Z.leb_spec 5 n), (Z.leb_spec n 120); cbn;
        rewrite ?Hparse;
        first [ split; [lia|]; intros d [= <-] _; done
              | split; [done|]; intros d [= <-] ?; lia ].
    + cbn. split; [lia|]. intros d [= <-] _. done.
  - cbn. rewrite parseInt_preset. split; [destruct p; cbn; lia|].
    intros d [= <-] _. done.
  - unfold AppInterval.startTimer.
    destruct (Js.parseInt (AppInterval.customDuration st)) as [d|] eqn:Hparse;
      [|cbn [fst]; rewrite Hparse; exact (conj Hrange Htext)].
    destruct ((d <? 5) || (120 <? d)) eqn:Hd;
      [cbn [fst]; rewrite Hparse; exact (conj Hrange Htext)|].
    apply orb_false_iff in Hd as [?%Z.ltb_ge ?%Z.ltb_ge].
    cbn. rewrite Hparse. split; [lia|]. intros d' [= <-] _. done.
  - exact (conj Hrange Htext).
  - exact (conj Hrange Htext).
  - destruct (second_keeps_duration st) as [-> ->]. exact (conj Hrange Htext).
Qed.

(** X17. In the first version, typing the decimal form of a number of
    minutes and pressing Start begins a session of exactly that length when
    the number is within 5..120; for every other integer the start raises the
    invalid-duration alert and neither begins a session nor changes the
    training duration. *)
Theorem typed_duration_starts (d : Z) (st : AppInterval.State) :
  let r := AppInterval.run
             [AppInterval.TypeDuration (pretty d); AppInterval.PressStart] st in
  (5 <= d <= 120 →
   AppInterval.isTimerActive r.1 = true
   ∧ AppInterval.timeRemaining r.1 = d * 60
   ∧ AppInterval.trainingDuration r.1 = d * 60
   ∧ r.2 = [KeyboardDismiss; StartNotification d])
  ∧ (d < 5 ∨ 120 < d →
     r.2 = [AlertInvalidDuration]
     ∧ AppInterval.isTimerActive r.1 = AppInterval.isTimerActive st
     ∧ AppInterval.timeRemaining r.1 = AppInterval.timeRemaining st
     ∧ AppInterval.trainingDuration r.1 = AppInterval.trainingDuration st).
Proof.
  cbn zeta. cbn [AppInterval.run AppInterval.handle].
  unfold AppInterval.validateAndSetDuration.
  rewrite pretty_nonempty, parseInt_pretty.
  split.
  - intros Hd.
    destruct (Z.leb_spec 5 d); [|lia]. destruct (Z.leb_spec d 120); [|lia].
    cbn [andb]. unfold AppInterval.startTimer.
    cbn [AppInterval.customDuration]. rewrite parseInt_pretty.
    destruct (Z.ltb_spec d 5); [lia|]. destruct (Z.ltb_spec 120 d); [lia|].
    done.
  - intros Hd.
    assert ((5 <=? d) && (d <=? 120) = false) as ->.
    { destruct (Z.leb_spec 5 d), (Z.leb_spec d 120); cbn; try done; lia. }
    unfold AppInterval.startTimer.
    cbn [AppInterval.customDuration]. rewrite parseInt_pretty.
    assert ((d <? 5) || (120 <? d) = true) as ->.
    { destruct (Z.ltb_spec d 5), (Z.ltb_spec 120 d); cbn; try done; lia. }
    done.
Qed.
